(** * StarGAN v2 training core (src/core/solver.py): a shallow embedding.

    Python values are modelled as follows.
    - A Python [float] in the configuration ([args.lambda_ds], ...) is a
      binary64 [PrimFloat.float], as CPython computes with it.
    - Tensor arithmetic (losses, parameters) is exact: tensor entries are
      rationals [Q]; the autograd graph of a tensor is kept as a [gnode] tree
      so that [detach] and [torch.no_grad] are visible.
    - An exception is a constructor of [exn]; code that may raise returns a
      [result].  Network forward passes are recorded in a call log, so that
      "fails before any forward pass" can be stated. *)

From Stdlib Require Import ZArith QArith Qabs List Bool Ascii String Lia.
From Stdlib Require Import Floats.
From Stdlib Require Import DecimalString Lqa.
From Stdlib Require DecimalFacts DecimalN.
Import ListNotations.
Set Warnings "-register-all,-inexact-float".
Open Scope string_scope.
Open Scope list_scope.

(** ** Python runtime: exceptions and results *)

Module Py.

Inductive exn :=
| AssertionError
| TypeError
| ValueError
| RuntimeError
| ZeroDivisionError
| UnboundLocalError
| FileNotFoundError
| KeyError
| AttributeError.

Inductive result (A : Type) : Type :=
| Ok (a : A)
| Err (e : exn).
Arguments Ok {A} a.
Arguments Err {A} e.

Definition rbind {A B} (r : result A) (k : A -> result B) : result B :=
  match r with Ok a => k a | Err e => Err e end.

(** Computations that may run network forward passes: the state is the log of
    the module names called so far; an exception keeps the log it was raised
    with. *)
Definition M (A : Type) : Type := list string -> result A * list string.

Definition ret {A} (a : A) : M A := fun log => (Ok a, log).
Definition raise {A} (e : exn) : M A := fun log => (Err e, log).
Definition bind {A B} (c : M A) (k : A -> M B) : M B :=
  fun log => match c log with
             | (Ok a, log') => k a log'
             | (Err e, log') => (Err e, log')
             end.
Definition lift {A} (r : result A) : M A :=
  match r with Ok a => ret a | Err e => raise e end.

(** [assert cond] *)
Definition assert (b : bool) : M unit :=
  if b then ret tt else raise AssertionError.

End Py.

Import Py.

Declare Scope py_scope.
Delimit Scope py_scope with py.
Notation "x <- c ;; k" := (bind c (fun x => k))
  (at level 61, c at next level, right associativity) : py_scope.
Notation "' p <- c ;; k" := (bind c (fun x => match x with p => k end))
  (at level 61, p pattern, c at next level, right associativity) : py_scope.
Notation "c ;;; k" := (bind c (fun _ => k))
  (at level 61, right associativity) : py_scope.

(** ** Python floats of the configuration, read as exact rationals when they
    scale a tensor. *)

(** The exact value of a finite float. *)
Definition Q_of_SF (x : spec_float) : Q :=
  match x with
  | S754_finite s m e =>
      let q := match e with
               | Z0 => inject_Z (Zpos m)
               | Zpos p => inject_Z (Zpos m * 2 ^ Zpos p)
               | Zneg p => Qmake (Zpos m) (Pos.pow 2 p)
               end in
      if s then Qopp q else q
  | _ => 0 (* zeros; infinities and NaN are not used as loss weights *)
  end.

Definition Q_of_float (f : float) : Q := Q_of_SF (FloatOps.Prim2SF f).

(** ** Tensors *)

(** The autograd graph of a tensor: no gradient, a leaf that requires a
    gradient, or the result of an operation or of a module call. *)
Inductive gnode :=
| NoGrad
| Leaf (name : string)
| Op (name : string) (args : list gnode).

Record tensor := mkT { data : list Q; grad : gnode }.

Definition is_nograd (g : gnode) : bool :=
  match g with NoGrad => true | _ => false end.

(** An elementwise operation is tracked unless none of its inputs is. *)
Definition op (name : string) (gs : list gnode) : gnode :=
  if forallb is_nograd gs then NoGrad else Op name gs.

Definition t_sub (a b : tensor) : tensor :=
  mkT (map (fun p => fst p - snd p) (combine (data a) (data b)))
      (op "sub" [grad a; grad b]).
Definition t_add (a b : tensor) : tensor :=
  mkT (map (fun p => fst p + snd p) (combine (data a) (data b)))
      (op "add" [grad a; grad b]).
Definition t_abs (a : tensor) : tensor :=
  mkT (map Qabs (data a)) (op "abs" [grad a]).

Fixpoint qsum (l : list Q) : Q :=
  match l with [] => 0 | q :: l' => q + qsum l' end.

(** [torch.mean]: a scalar (0 on an empty tensor, where torch gives nan). *)
Definition t_mean (a : tensor) : tensor :=
  mkT [qsum (data a) / inject_Z (Z.of_nat (List.length (data a)))]
      (op "mean" [grad a]).

(** [c * t] for a Python float [c]. *)
Definition t_scale (c : float) (a : tensor) : tensor :=
  mkT (map (Qmult (Q_of_float c)) (data a)) (op "mul" [grad a]).

(** [t + c] for a Python number [c]. *)
Definition t_add_const (a : tensor) (c : Q) : tensor :=
  mkT (map (Qplus c) (data a)) (grad a).

Definition detach (a : tensor) : tensor := mkT (data a) NoGrad.

(** [x.requires_grad_()] on an input. *)
Definition requires_grad_ (name : string) (a : tensor) : tensor :=
  mkT (data a) (match grad a with NoGrad => Leaf name | g => g end).

(** [t.item()]: only a one-element tensor has one. *)
Definition item (a : tensor) : result Q :=
  match data a with [q] => Ok q | _ => Err RuntimeError end.

(** [Munch(key=value, ...)]: keys in insertion order. *)
Definition munch := list (string * Q).

(** ** Configuration ([args]) *)

Record Args := mkArgs {
  mode : string;
  lambda_reg : float;
  lambda_sty : float;
  lambda_ds : float;
  lambda_cyc : float;
  w_hpf : float;
  ds_epoch : Z;
  ema : bool;
  num_epochs : Z;
  resume_epoch : Z;
  wandb_log : Z;
  save_every : Z;
  eval_every : Z;
  checkpoint_dir : string }.

(** [args.lambda_ds = v]: the one field the training loop mutates. *)
Definition set_lambda_ds (a : Args) (v : float) : Args :=
  mkArgs (mode a) (lambda_reg a) (lambda_sty a) v (lambda_cyc a) (w_hpf a)
         (ds_epoch a) (ema a) (num_epochs a) (resume_epoch a) (wandb_log a)
         (save_every a) (eval_every a) (checkpoint_dir a).

(** [args.w_hpf > 0] *)
Definition hpf_on (a : Args) : bool := PrimFloat.ltb 0%float (w_hpf a).

(** ** Networks (core.model, external): the forward functions of the live
    ensemble, on tensor data. *)

Record Nets := mkNets {
  generator : list Q -> list Q -> option (list Q) -> list Q;
  mapping_network : list Q -> list Q -> list Q;
  style_encoder : list Q -> list Q -> list Q;
  discriminator : list Q -> list Q -> list Q;
  get_heatmap : list Q -> list Q }.

Open Scope py_scope.

(** One module call: logged, and tracked by autograd unless it runs under
    [torch.no_grad()] ([nograd = true]); the module's own parameters require
    a gradient, so the output is tracked whatever its inputs. *)
Definition forward (nograd : bool) (name : string) (out : list Q)
  (ins : list tensor) : M tensor :=
  fun log => (Ok (mkT out (if nograd then NoGrad else Op name (map grad ins))),
              log ++ [name]).

Definition opt_data (m : option tensor) : option (list Q) :=
  match m with Some t => Some (data t) | None => None end.
Definition opt_list (m : option tensor) : list tensor :=
  match m with Some t => [t] | None => [] end.

Definition call_generator (nets : Nets) (ng : bool) (x s : tensor)
  (masks : option tensor) : M tensor :=
  forward ng "generator" (generator nets (data x) (data s) (opt_data masks))
          ([x; s] ++ opt_list masks).
Definition call_mapping_network (nets : Nets) (ng : bool) (z y : tensor) : M tensor :=
  forward ng "mapping_network" (mapping_network nets (data z) (data y)) [z; y].
Definition call_style_encoder (nets : Nets) (ng : bool) (x y : tensor) : M tensor :=
  forward ng "style_encoder" (style_encoder nets (data x) (data y)) [x; y].
Definition call_discriminator (nets : Nets) (ng : bool) (x y : tensor) : M tensor :=
  forward ng "discriminator" (discriminator nets (data x) (data y)) [x; y].
Definition call_get_heatmap (nets : Nets) (ng : bool) (x : tensor) : M tensor :=
  forward ng "fan" (get_heatmap nets (data x)) [x].

(** [a, b = xs] *)
Definition unpack2 (xs : option (list tensor)) : M (tensor * tensor) :=
  match xs with
  | None => raise TypeError
  | Some [a; b] => ret (a, b)
  | Some _ => raise ValueError
  end.

(** ** Loss functions *)

Section Losses.

(** [F.binary_cross_entropy_with_logits(logits, targets)] (torch, external). *)
Variable bce_with_logits : list Q -> list Q -> Q.

Definition adv_loss (logits : tensor) (target : Z) : M tensor :=
  assert (existsb (Z.eqb target) [1; 0]%Z) ;;;
  let targets := map (fun _ => inject_Z target) (data logits) in
  ret (mkT [bce_with_logits (data logits) targets]
           (op "binary_cross_entropy_with_logits" [grad logits])).

Definition is_None {A} (o : option A) : bool :=
  match o with None => true | Some _ => false end.

Definition compute_d_loss (nets : Nets) (args : Args) (x_real y_org y_trg : tensor)
  (z_trg x_ref masks : option tensor) : M (tensor * munch) :=
  assert (negb (Bool.eqb (is_None z_trg) (is_None x_ref))) ;;;
  let x_real := requires_grad_ "x_real" x_real in
  out <- call_discriminator nets false x_real y_org ;;
  loss_real <- adv_loss out 1 ;;
  let loss_reg := 0%Q in
  s_trg <- (match z_trg, x_ref with
            | Some z, _ => call_mapping_network nets true z y_trg
            | None, Some xr => call_style_encoder nets true xr y_trg
            | None, None => raise TypeError
            end) ;;
  x_fake <- call_generator nets true x_real s_trg masks ;;
  out <- call_discriminator nets false x_fake y_trg ;;
  loss_fake <- adv_loss out 0 ;;
  let loss := t_add_const (t_add loss_real loss_fake)
                          (Q_of_float (lambda_reg args) * loss_reg) in
  real <- lift (item loss_real) ;;
  fake <- lift (item loss_fake) ;;
  ret (loss, [("real", real); ("fake", fake); ("reg", 0%Q)]).

Definition compute_g_loss (nets : Nets) (args : Args) (x_real y_org y_trg : tensor)
  (z_trgs x_refs : option (list tensor)) (masks : option tensor)
  : M (tensor * munch) :=
  '(z_trg, z_trg2) <- unpack2 z_trgs ;;
  '(x_ref, x_ref2) <- unpack2 x_refs ;;
  (* adversarial loss *)
  s_trg <- call_mapping_network nets false z_trg y_trg ;;
  x_fake <- call_generator nets false x_real s_trg masks ;;
  out <- call_discriminator nets false x_fake y_trg ;;
  loss_adv <- adv_loss out 1 ;;
  (* style reconstruction loss *)
  s_pred <- call_style_encoder nets false x_fake y_trg ;;
  s_ref <- call_style_encoder nets false x_ref y_trg ;;
  let loss_sty := t_mean (t_abs (t_sub s_pred s_ref)) in
  (* diversity sensitive loss *)
  s_trg2 <- call_mapping_network nets false z_trg2 y_trg ;;
  x_fake2 <- call_generator nets false x_real s_trg2 masks ;;
  let x_fake2 := detach x_fake2 in
  let loss_ds := t_mean (t_abs (t_sub x_fake x_fake2)) in
  (* cycle-consistency loss *)
  masks <- (if hpf_on args
            then h <- call_get_heatmap nets false x_fake ;; ret (Some h)
            else ret None) ;;
  s_org <- call_style_encoder nets false x_real y_org ;;
  x_rec <- call_generator nets false x_fake s_org masks ;;
  let loss_cyc := t_mean (t_abs (t_sub x_rec x_real)) in
  let loss := t_add (t_sub (t_add loss_adv (t_scale (lambda_sty args) loss_sty))
                           (t_scale (lambda_ds args) loss_ds))
                    (t_scale (lambda_cyc args) loss_cyc) in
  adv <- lift (item loss_adv) ;;
  sty <- lift (item loss_sty) ;;
  ds <- lift (item loss_ds) ;;
  cyc <- lift (item loss_cyc) ;;
  ret (loss, [("adv", adv); ("sty", sty); ("ds", ds); ("cyc", cyc)]).

End Losses.

(** [torch.mean(torch.abs(a - b))] on tensor data. *)
Definition mean_abs_diff (a b : list Q) : Q :=
  let d := map Qabs (map (fun p => fst p - snd p) (combine a b)) in
  qsum d / inject_Z (Z.of_nat (List.length d)).

(** ** Parameters and the EMA update *)

(** Parameters are float32 tensors: IEEE 754 binary32 values (24-bit
    significand, infinities at exponent 128), as Stdlib's [spec_float], each
    operation rounding to nearest, ties to even. *)
Definition f32 := spec_float.
Definition f32_add : f32 -> f32 -> f32 := SFadd 24 128.
Definition f32_sub : f32 -> f32 -> f32 := SFsub 24 128.
Definition f32_mul : f32 -> f32 -> f32 := SFmul 24 128.
Definition f32_one : f32 := SFone 24 128.
Definition f32_half : f32 := binary_round 24 128 false 1 (-1).

(** A Python float (binary64) cast to float32. *)
Definition f32_of_float (x : float) : f32 :=
  match FloatOps.Prim2SF x with
  | S754_finite s m e => binary_round 24 128 s m e
  | y => y
  end.

(** A Python int cast to float32. *)
Definition f32_of_Z (z : Z) : f32 := binary_normalize 24 128 z 0 false.

Definition f32_finite (x : f32) : bool :=
  match x with S754_zero _ | S754_finite _ _ _ => true | _ => false end.

(** [torch.lerp(start, end, weight)] on one float32 entry, as ATen's [lerp]
    (Lerp.h) computes it: the weight [w] in float32; [start + w * (end -
    start)] when [|w| < 0.5], otherwise [end - (end - start) * (1 - w)]. *)
Definition f32_lerp (start end_ w : f32) : f32 :=
  if SFltb (SFabs w) f32_half
  then f32_add start (f32_mul w (f32_sub end_ start))
  else f32_sub end_ (f32_mul (f32_sub end_ start) (f32_sub f32_one w)).

(** A parameter tensor (flattened) and a module's [parameters()] in order. *)
Definition param := list f32.

(** [torch.lerp(start, end, weight)] with a Python float weight. *)
Definition lerp (start end_ : param) (weight : float) : param :=
  map (fun p => f32_lerp (fst p) (snd p) (f32_of_float weight)) (combine start end_).

(** [moving_average(model, model_test, beta)]: the loop over
    [zip(model.parameters(), model_test.parameters())] assigns each
    [param_test.data]; shadow parameters past the shorter list are left as
    they are.  The state is the pair (live, shadow) of parameter lists. *)
Fixpoint moving_average_params (model model_test : list param) (beta : float)
  : list param :=
  match model, model_test with
  | p :: ps, pt :: pts => lerp p pt beta :: moving_average_params ps pts beta
  | _, _ => model_test
  end.

Definition moving_average (st : list param * list param) (beta : float)
  : list param * list param :=
  (fst st, moving_average_params (fst st) (snd st) beta).

(** An ensemble ([Munch] of modules): role name to parameter list. *)
Definition Ens := list (string * list param).

Fixpoint ens_get (e : Ens) (n : string) : option (list param) :=
  match e with
  | [] => None
  | (k, v) :: e' => if String.eqb k n then Some v else ens_get e' n
  end.

Fixpoint ens_set (e : Ens) (n : string) (v : list param) : Ens :=
  match e with
  | [] => []
  | (k, w) :: e' => if String.eqb k n then (k, v) :: e' else (k, w) :: ens_set e' n v
  end.

(** [moving_average(nets.<role>, nets_ema.<role>, beta=0.999)]; a [Munch]
    without the attribute raises [AttributeError]. *)
Definition ema_role (live ema_ : Ens) (role : string) : result Ens :=
  match ens_get live role, ens_get ema_ role with
  | Some p, Some pt => Ok (ens_set ema_ role (snd (moving_average (p, pt) 0.999%float)))
  | _, _ => Err AttributeError
  end.

(** ** Python arithmetic on the integers of the configuration *)

(** [a % b]: floor modulo (as [Z.modulo]); [ZeroDivisionError] for 0. *)
Definition py_mod (a b : Z) : result Z :=
  if Z.eqb b 0 then Err ZeroDivisionError else Ok (Z.modulo a b).

(** [float(n)] for [|n| < 2^63]. *)
Definition float_of_Z (n : Z) : float :=
  if Z.ltb n 0 then PrimFloat.opp (PrimFloat.of_uint63 (Uint63.of_Z (Z.opp n)))
  else PrimFloat.of_uint63 (Uint63.of_Z n).

(** [x / n] for a float [x] and an int [n]. *)
Definition py_div (x : float) (n : Z) : result float :=
  if Z.eqb n 0 then Err ZeroDivisionError
  else Ok (PrimFloat.div x (float_of_Z n)).

(** The decay at the end of each iteration:
    [if args.lambda_ds > 0: args.lambda_ds -= (initial_lambda_ds / args.ds_epoch)] *)
Definition decay_lambda_ds (args : Args) (initial_lambda_ds : float) : result Args :=
  if PrimFloat.ltb 0%float (lambda_ds args) then
    rbind (py_div initial_lambda_ds (ds_epoch args))
          (fun d => Ok (set_lambda_ds args (PrimFloat.sub (lambda_ds args) d)))
  else Ok args.


(** ** The training loop ([Solver.train]) *)

(** One fetched batch ([InputFetcher], mode 'train'). *)
Record Batch := mkBatch {
  x_src : tensor; y_src : tensor;
  x_ref : tensor; x_ref2 : tensor; y_ref : tensor;
  z_trg : tensor; z_trg2 : tensor }.

(** Calls to external collaborators, in the order they are made. *)
Inductive event :=
| WandbLog (step : Z) (d : munch)
| SaveCheckpoint (step : Z)
| CalculateMetrics (step : Z) (mode : string).

Record TrainState := mkTS {
  st_args : Args;             (* [args], with its mutable [lambda_ds] *)
  st_live : Ens;              (* parameters of [nets] *)
  st_ema : Ens;               (* parameters of [nets_ema] *)
  st_fetched : nat;           (* batches taken from [fetcher] so far *)
  st_all_losses : option munch; (* the local [all_losses]; None while unbound *)
  st_calls : list string;     (* network forward passes so far *)
  st_events : list event }.

Definition prefix_keys (p : string) (m : munch) : munch :=
  map (fun kv => ((p ++ fst kv)%string, snd kv)) m.

Section Train.

(** The network ensemble and the batches [next(fetcher)] yields. *)
Variable nets : Nets.
Variable fetch : nat -> Batch.

(** The two loss phases, as [Solver.train] calls them (the source's calls are
    [source_d_phase] and [source_g_phase] below), and the effect of the
    GradScaler/Adam steps that follow each one on the live parameters. *)
Variable d_phase : Args -> Batch -> option tensor -> M (tensor * munch).
Variable g_phase : Args -> Batch -> option tensor -> M (tensor * munch).
Variable d_optim_step : Ens -> Ens.
Variable g_optim_step : Ens -> Ens.

Definition run_phase (ph : M (tensor * munch)) (calls : list string)
  : result ((tensor * munch) * list string) :=
  match ph calls with
  | (Ok r, calls') => Ok (r, calls')
  | (Err e, _) => Err e
  end.

(** The EMA update of the three roles, if [args.ema]. *)
Definition ema_update (args : Args) (live ema_ : Ens) : result Ens :=
  if ema args then
    rbind (ema_role live ema_ "generator") (fun e1 =>
    rbind (ema_role live e1 "mapping_network") (fun e2 =>
    ema_role live e2 "style_encoder"))
  else Ok ema_.

(** One iteration of the inner [for batch_idx in range(iters_per_epoch)]. *)
Definition train_batch (initial_lambda_ds : float) (st : TrainState)
  : result TrainState :=
  let args := st_args st in
  let inputs := fetch (st_fetched st) in
  let x_real := x_src inputs in
  let '(mres, calls0) :=
    (if hpf_on args
     then bind (call_get_heatmap nets false x_real) (fun h => ret (Some h))
     else ret None) (st_calls st) in
  rbind mres (fun masks =>
  (* Discriminator step *)
  rbind (run_phase (d_phase args inputs masks) calls0) (fun r1 => let '((_, d_losses_latent), calls1) := r1 in
  let live1 := d_optim_step (st_live st) in
  (* Generator step *)
  rbind (run_phase (g_phase args inputs masks) calls1) (fun r2 => let '((_, g_losses_latent), calls2) := r2 in
  let live2 := g_optim_step live1 in
  (* Collect and display losses *)
  let all_losses := prefix_keys "D/latent_" d_losses_latent
                    ++ prefix_keys "G/latent_" g_losses_latent
                    ++ [("G/lambda_ds", Q_of_float (lambda_ds args))] in
  (* EMA update and lambda decay *)
  rbind (ema_update args live2 (st_ema st)) (fun ema2 =>
  rbind (decay_lambda_ds args initial_lambda_ds) (fun args' =>
  Ok (mkTS args' live2 ema2 (S (st_fetched st)) (Some all_losses) calls2
           (st_events st))))))).

Fixpoint train_batches (initial_lambda_ds : float) (n : nat) (st : TrainState)
  : result TrainState :=
  match n with
  | O => Ok st
  | S n' => rbind (train_batch initial_lambda_ds st) (train_batches initial_lambda_ds n')
  end.

Definition emit (st : TrainState) (ev : event) : TrainState :=
  mkTS (st_args st) (st_live st) (st_ema st) (st_fetched st) (st_all_losses st)
       (st_calls st) (st_events st ++ [ev]).

(** Logging, saving, evaluating at the end of an epoch. *)
Definition end_of_epoch (epoch : Z) (st : TrainState) : result TrainState :=
  let args := st_args st in
  rbind (py_mod epoch (wandb_log args)) (fun r1 =>
  rbind (if Z.eqb r1 0 then
           match st_all_losses st with
           | Some l => Ok (emit st (WandbLog epoch l))
           | None => Err UnboundLocalError
           end
         else Ok st) (fun st1 =>
  rbind (py_mod epoch (save_every args)) (fun r2 =>
  let st2 := if Z.eqb r2 0 then emit st1 (SaveCheckpoint epoch) else st1 in
  rbind (py_mod epoch (eval_every args)) (fun r3 =>
  Ok (if Z.eqb r3 0
      then emit (emit st2 (CalculateMetrics epoch "latent"))
                (CalculateMetrics epoch "reference")
      else st2))))).

Definition train_epoch (initial_lambda_ds : float) (iters_per_epoch : nat)
  (epoch : Z) (st : TrainState) : result TrainState :=
  rbind (train_batches initial_lambda_ds iters_per_epoch st) (end_of_epoch epoch).

Fixpoint train_epochs (initial_lambda_ds : float) (iters_per_epoch : nat)
  (epochs : list Z) (st : TrainState) : result TrainState :=
  match epochs with
  | [] => Ok st
  | e :: es => rbind (train_epoch initial_lambda_ds iters_per_epoch e st)
                     (train_epochs initial_lambda_ds iters_per_epoch es)
  end.

(** [range(start, stop)] *)
Definition py_range (start stop : Z) : list Z :=
  map (fun k => start + Z.of_nat k)%Z (seq 0 (Z.to_nat (stop - start))).

(** [Solver.train(loaders)], from the state after [__init__]. *)
Definition train (iters_per_epoch : nat) (st : TrainState) : result TrainState :=
  let args := st_args st in
  let initial_lambda_ds := lambda_ds args in
  let start_epoch := if Z.ltb 0 (resume_epoch args) then resume_epoch args else 0%Z in
  train_epochs initial_lambda_ds iters_per_epoch
               (py_range start_epoch (num_epochs args)) st.

End Train.

(** The loss calls of [Solver.train] as written (lines 128 and 136). *)
Definition source_d_phase (bce : list Q -> list Q -> Q) (nets : Nets)
  (args : Args) (b : Batch) (masks : option tensor) : M (tensor * munch) :=
  compute_d_loss bce nets args (x_src b) (y_src b) (y_ref b)
                 (Some (z_trg b)) None masks.

Definition source_g_phase (bce : list Q -> list Q -> Q) (nets : Nets)
  (args : Args) (b : Batch) (masks : option tensor) : M (tensor * munch) :=
  compute_g_loss bce nets args (x_src b) (y_src b) (y_ref b)
                 (Some [z_trg b; z_trg2 b]) None masks.

(** ** Checkpoint file names *)

Definition starts_with_slash (s : string) : bool :=
  match s with String c _ => Ascii.eqb c "/"%char | EmptyString => false end.

Fixpoint ends_with_slash (s : string) : bool :=
  match s with
  | EmptyString => false
  | String c EmptyString => Ascii.eqb c "/"%char
  | String _ s' => ends_with_slash s'
  end.

(** [os.path.join(a, b)] (posixpath) for two components. *)
Definition ospj (a b : string) : string :=
  if starts_with_slash b then b
  else if String.eqb a "" || ends_with_slash a then (a ++ b)%string
  else (a ++ "/" ++ b)%string.

Fixpoint zeros (k : nat) : string :=
  match k with O => EmptyString | S k' => String "0"%char (zeros k') end.

Definition zpad (w : nat) (s : string) : string :=
  (zeros (w - String.length s) ++ s)%string.

Definition digits (n : N) : string := NilZero.string_of_uint (N.to_uint n).

(** ['{:06d}'.format(n)] *)
Definition format06d (n : Z) : string :=
  if Z.ltb n 0 then ("-" ++ zpad 5 (digits (Z.to_N (Z.opp n))))%string
  else zpad 6 (digits (Z.to_N n)).

(** Whether a string contains the character [c]. *)
Fixpoint has_char (c : ascii) (s : string) : bool :=
  match s with
  | EmptyString => false
  | String c' s' => Ascii.eqb c' c || has_char c s'
  end.

(** A file-name template [ospj(dir, '{:06d}' + suffix)]; formatting a step
    into it gives [ospj(dir, '{:06d}'.format(step) + suffix)]. *)
Record Template := mkTemplate { tpl_dir : string; tpl_suffix : string }.

Definition fname (t : Template) (step : Z) : string :=
  ospj (tpl_dir t) (format06d step ++ tpl_suffix t)%string.

(** ** Checkpoint manager and solver state *)

(** The three collections a [CheckpointIO] can be given as keyword
    arguments: modules of [self.nets], of [self.nets_ema], and the
    optimizers of [self.optims]; registration keeps references to them. *)
Inductive owner := LiveNets | EmaNets | Optims.

Record Store := mkStore { s_live : Ens; s_ema : Ens; s_optims : Ens }.

Definition store_get (s : Store) (o : owner) : Ens :=
  match o with LiveNets => s_live s | EmaNets => s_ema s | Optims => s_optims s end.

Definition store_set (s : Store) (o : owner) (e : Ens) : Store :=
  match o with
  | LiveNets => mkStore e (s_ema s) (s_optims s)
  | EmaNets => mkStore (s_live s) e (s_optims s)
  | Optims => mkStore (s_live s) (s_ema s) e
  end.

Record CheckpointIO := mkCkptIO {
  ck_template : Template;
  ck_modules : list (string * owner);
  ck_data_parallel : bool }.

(** [CheckpointIO(template, data_parallel=dp, **coll)] *)
Definition make_ckptio (t : Template) (dp : bool) (o : owner) (coll : Ens) : CheckpointIO :=
  mkCkptIO t (map (fun kv => (fst kv, o)) coll) dp.

(** Files on disk: name to the saved [name -> state] collection. *)
Definition Payload := list (string * list param).
Definition FS := list (string * Payload).

Fixpoint fs_get (fs : FS) (n : string) : option Payload :=
  match fs with
  | [] => None
  | (k, v) :: fs' => if String.eqb k n then Some v else fs_get fs' n
  end.

Definition fs_write (fs : FS) (n : string) (p : Payload) : FS :=
  (n, p) :: filter (fun kv => negb (String.eqb (fst kv) n)) fs.

Fixpoint collect {A B} (f : A -> result B) (l : list A) : result (list B) :=
  match l with
  | [] => Ok []
  | a :: l' => rbind (f a) (fun b => rbind (collect f l') (fun bs => Ok (b :: bs)))
  end.

(** Modelled from the spec: [CheckpointIO.save(step)] of core/checkpoint.py
    (not in src): "save(step) serializes all registered collections keyed by
    step" -- the file named by the template at [step] holds the current state
    of every registered module. *)
Definition ckptio_save (io : CheckpointIO) (step : Z) (s : Store) (fs : FS)
  : result FS :=
  rbind (collect (fun m => match ens_get (store_get s (snd m)) (fst m) with
                           | Some v => Ok (fst m, v)
                           | None => Err KeyError
                           end) (ck_modules io))
        (fun payload => Ok (fs_write fs (fname (ck_template io) step) payload)).

(** Modelled from the spec: [CheckpointIO.load(step)] of core/checkpoint.py
    (not in src): "load(step) restores them; fails with a load error if the
    step file is absent or schema mismatches". *)
Definition ckptio_load (io : CheckpointIO) (step : Z) (s : Store) (fs : FS)
  : result Store :=
  match fs_get fs (fname (ck_template io) step) with
  | None => Err FileNotFoundError
  | Some payload =>
      fold_left (fun acc m =>
                   rbind acc (fun s' =>
                     match ens_get payload (fst m) with
                     | Some v => Ok (store_set s' (snd m)
                                       (ens_set (store_get s' (snd m)) (fst m) v))
                     | None => Err KeyError
                     end))
                (ck_modules io) (Ok s)
  end.

Record Solver := mkSolver {
  sv_args : Args;
  sv_store : Store;
  sv_ckptios : list CheckpointIO }.

(** Python's [needle in hay] on strings. *)
Fixpoint str_contains (needle hay : string) : bool :=
  match hay with
  | EmptyString => String.eqb needle ""
  | String _ hay' => String.prefix needle hay || str_contains needle hay'
  end.

(** The loop closing [Solver.__init__]: the named children of the solver are
    the modules of [self.nets] (set as attributes, in order; [nets_ema] is
    not set); each whose name contains neither ['ema'] nor ['fan'] gets
    [network.apply(utils.he_init)].  [he_init] (core/utils.py, not in src)
    redraws weights at random: [he name ps] is what it leaves in child
    [name] whose parameters were [ps]. *)
Definition init_children (he : string -> list param -> list param) (nets : Ens) : Ens :=
  map (fun kv => if negb (str_contains "ema" (fst kv)) && negb (str_contains "fan" (fst kv))
                 then (fst kv, he (fst kv) (snd kv)) else kv) nets.

(** [Solver.__init__] given the ensembles [build_model(args)] returns
    (parameters only) and the draws [he] of [he_init]: optimizers,
    checkpoint registrations (references to the collections, which therefore
    see the later re-initialisation), then the initialisation loop. *)
Definition solver_init (args : Args) (nets nets_ema : Ens)
    (he : string -> list param -> list param) : Solver :=
  if String.eqb (mode args) "train" then
    let optims := map (fun kv => (fst kv, @nil param))
                      (filter (fun kv => negb (String.eqb (fst kv) "fan")) nets) in
    mkSolver args (mkStore (init_children he nets) nets_ema optims)
      [make_ckptio (mkTemplate (checkpoint_dir args) "_nets.ckpt") true LiveNets nets;
       make_ckptio (mkTemplate (checkpoint_dir args) "_optims.ckpt") false Optims optims]
  else
    mkSolver args (mkStore (init_children he nets) nets_ema [])
      [make_ckptio (mkTemplate (checkpoint_dir args) "_nets_ema.ckpt") true EmaNets nets_ema].

Fixpoint save_all (ios : list CheckpointIO) (step : Z) (s : Store) (fs : FS) : result FS :=
  match ios with
  | [] => Ok fs
  | io :: ios' => rbind (ckptio_save io step s fs) (save_all ios' step s)
  end.

Fixpoint load_all (ios : list CheckpointIO) (step : Z) (s : Store) (fs : FS) : result Store :=
  match ios with
  | [] => Ok s
  | io :: ios' => rbind (ckptio_load io step s fs) (fun s' => load_all ios' step s' fs)
  end.

Definition _save_checkpoint (sv : Solver) (step : Z) (fs : FS) : result FS :=
  save_all (sv_ckptios sv) step (sv_store sv) fs.

Definition _load_checkpoint (sv : Solver) (step : Z) (fs : FS) : result Solver :=
  rbind (load_all (sv_ckptios sv) step (sv_store sv) fs)
        (fun s => Ok (mkSolver (sv_args sv) s (sv_ckptios sv))).

(** The [utils] calls of [Solver.sample], with the ensemble they are given
    (its parameters at the time of the call). *)
Inductive sample_call :=
| TranslateUsingReference (nets : Ens)
| VideoRef (nets : Ens).

(** [Solver.sample(loaders)]: [nets_ema = self.nets] names the live ensemble;
    the checkpoint is loaded through [self.ckptios]. *)
Definition sample (sv : Solver) (fs : FS) : result (Solver * list sample_call) :=
  let nets_ema := LiveNets in
  rbind (_load_checkpoint sv (resume_epoch (sv_args sv)) fs) (fun sv' =>
  let used := store_get (sv_store sv') nets_ema in
  Ok (sv', [TranslateUsingReference used; VideoRef used])).

(** [Solver.evaluate()]: [nets = self.nets]; the checkpoint of
    [resume_epoch] is loaded through [self.ckptios]; then
    [calculate_metrics(nets, args, step=resume_epoch, mode=...)] for the modes
    'latent' and 'reference', each given the ensemble [nets] (its parameters
    at the time of the call) and the step. *)
Definition evaluate (sv : Solver) (fs : FS) : result (Solver * list (Ens * Z * string)) :=
  let args := sv_args sv in
  let nets := LiveNets in
  let resume_epoch := resume_epoch args in
  rbind (_load_checkpoint sv resume_epoch fs) (fun sv' =>
  let used := store_get (sv_store sv') nets in
  Ok (sv', [(used, resume_epoch, "latent"); (used, resume_epoch, "reference")])).

(** ** Observing runs *)

(** The steps of the [wandb.log] calls, of the checkpoint saves, and the
    (step, mode) of the [calculate_metrics] calls in an event list. *)
Definition wandb_steps (evs : list event) : list Z :=
  flat_map (fun ev => match ev with WandbLog s _ => [s] | _ => [] end) evs.

Definition save_steps (evs : list event) : list Z :=
  flat_map (fun ev => match ev with SaveCheckpoint s => [s] | _ => [] end) evs.

Definition metric_calls (evs : list event) : list (Z * string) :=
  flat_map (fun ev => match ev with CalculateMetrics s m => [(s, m)] | _ => [] end) evs.

(** Whether an autograd graph reaches an operation or module named [n]:
    [backward()] on a tensor with this graph sends gradients into [n]. *)
Fixpoint mentions (n : string) (g : gnode) : bool :=
  match g with
  | NoGrad | Leaf _ => false
  | Op m args => String.eqb m n || existsb (mentions n) args
  end.

(** The three modules [Solver.train] moves into the shadow ensemble. *)
Definition ema_roles : list string := ["generator"; "mapping_network"; "style_encoder"].

(** ** Concrete configurations used to instantiate the properties *)

Module Ex.

(** A stand-in for [binary_cross_entropy_with_logits] and small networks on
    one-pixel images: enough to run the code on concrete inputs. *)
Definition bce (logits targets : list Q) : Q := qsum logits - qsum targets.

Definition nets : Nets :=
  mkNets (fun x s _ => map (fun p => fst p + snd p) (combine x s))
         (fun z _ => z)
         (fun x _ => x)
         (fun x _ => x)
         (fun x => x).

Definition t (l : list Q) : tensor := mkT l NoGrad.

Definition args (lambda_ds0 : float) (ds_epoch0 : Z) (n_epochs : Z) : Args :=
  mkArgs "train" 0%float 1%float lambda_ds0 1%float 0%float ds_epoch0 true
         n_epochs 0%Z 1%Z 1%Z 1%Z "expr/checkpoints".

(** Ensembles whose every module has one parameter holding [v]. *)
Definition ens (v : Z) : Ens :=
  [("generator", [[f32_of_Z v]]); ("mapping_network", [[f32_of_Z v]]);
   ("style_encoder", [[f32_of_Z v]]); ("discriminator", [[f32_of_Z v]]);
   ("fan", [[f32_of_Z v]])].

Definition ema_ens (v : Z) : Ens :=
  [("generator", [[f32_of_Z v]]); ("mapping_network", [[f32_of_Z v]]);
   ("style_encoder", [[f32_of_Z v]])].

(** [he_init] draws: every re-initialised entry becomes 5. *)
Definition he (name : string) (ps : list param) : list param :=
  map (map (fun _ => f32_of_Z 5)) ps.

(** Batch [k] of an epoch; [first] is the source pixel of batch 0. *)
Definition fetch (first : Q) (k : nat) : Batch :=
  let v := match k with O => first | S _ => inject_Z (Z.of_nat k) end in
  mkBatch (t [v]) (t [0]) (t [2]) (t [3]) (t [1]) (t [4]) (t [5]).

(** Not the source's call: the source's generator call (line 136) passes no
    [x_refs] and raises [TypeError] on every batch (claim C1).  This one
    passes the reference pair as well; it serves only to instantiate, at a
    concrete run where both phases return, the properties below that hold
    for any loss phases. *)
Definition g_phase_with_refs (bce0 : list Q -> list Q -> Q) (nets0 : Nets)
  (args0 : Args) (b : Batch) (masks : option tensor) : M (tensor * munch) :=
  compute_g_loss bce0 nets0 args0 (x_src b) (y_src b) (y_ref b)
                 (Some [z_trg b; z_trg2 b]) (Some [x_ref b; x_ref2 b]) masks.


Definition state0 (a : Args) : TrainState :=
  mkTS a (ens 1) (ema_ens 0) 0 None [] [].


(** Sample mode: the EMA checkpoint of step 0 on disk holds parameters 2,
    the freshly built live ensemble holds parameters 1. *)
Definition sample_args : Args :=
  mkArgs "sample" 0%float 1%float 1%float 1%float 0%float 4%Z true
         1%Z 0%Z 1%Z 1%Z 1%Z "expr/checkpoints".

Definition ema_fs : FS :=
  [(fname (mkTemplate "expr/checkpoints" "_nets_ema.ckpt") 0, ema_ens 2)].

End Ex.

(** * Properties *)

(** ** Generator phase of the training loop *)

(** Claim C1: in [Solver.train] the generator phase calls [compute_g_loss]
    with [z_trgs=[z_trg, z_trg2]] and no [x_refs]; [compute_g_loss] unpacks
    [x_refs] unconditionally, so every training iteration raises [TypeError]
    there, whatever the networks, batch and state. *)
Theorem C1_train_iteration_raises_TypeError :
  forall bce nets fetch d_step g_step initial_lambda_ds st,
    train_batch nets fetch (source_d_phase bce nets) (source_g_phase bce nets)
                d_step g_step initial_lambda_ds st = Err TypeError.
Proof.
  intros. unfold train_batch.
  destruct (hpf_on (st_args st)); reflexivity.
Qed.

(** ** Style source of the discriminator loss *)

(** Claim C2: [compute_d_loss] raises [AssertionError] before any network
    forward pass (the call log is unchanged) when both or neither of [z_trg]
    and [x_ref] are given, and returns when exactly one is given. *)
Theorem C2_d_loss_exactly_one_style_source :
  forall bce nets args x_real y_org y_trg z xr masks log,
    match z, xr with
    | Some _, None | None, Some _ =>
        exists r log',
          compute_d_loss bce nets args x_real y_org y_trg z xr masks log
          = (Ok r, log')
    | _, _ =>
        compute_d_loss bce nets args x_real y_org y_trg z xr masks log
        = (Err AssertionError, log)
    end.
Proof.
  intros. destruct z, xr; cbn; try reflexivity; do 2 eexists; reflexivity.
Qed.

(** ** EMA update *)







(** ** Generator loss *)

Lemma qsum_nonneg : forall l, (forall x, In x l -> 0 <= x) -> 0 <= qsum l.
Proof.
  induction l as [|x l IH]; intros H; cbn.
  - apply Qle_refl.
  - assert (0 <= x) by (apply H; left; reflexivity).
    assert (0 <= qsum l) by (apply IH; intros y Hy; apply H; right; exact Hy).
    lra.
Qed.

Lemma mean_abs_diff_nonneg : forall a b, 0 <= mean_abs_diff a b.
Proof.
  intros a b. unfold mean_abs_diff, Qdiv.
  apply Qmult_le_0_compat.
  - apply qsum_nonneg. intros x Hx. apply in_map_iff in Hx.
    destruct Hx as [y [<- _]]. apply Qabs_nonneg.
  - apply Qinv_le_0_compat. unfold Qle; cbn. lia.
Qed.

(** Case analysis of a returning [compute_g_loss] call: both pairs were
    given as two-element lists, and the body is evaluated. *)
Ltac g_loss_returns H :=
  match type of H with
  | compute_g_loss _ _ ?args _ _ _ ?zs ?xs _ _ = _ =>
      destruct zs as [[|?z1 [|?z2 [|? ?]]]|]; cbn in H; try discriminate H;
      destruct xs as [[|?r1 [|?r2 [|? ?]]]|]; cbn in H; try discriminate H;
      destruct (PrimFloat.ltb 0%float (w_hpf args)); cbn in H; injection H as <- <- <-
  end.

(** Claim C7: whenever [compute_g_loss] returns, its loss is
    [adv + lambda_sty*sty - lambda_ds*ds + lambda_cyc*cyc] and its breakdown
    is exactly the record [{adv, sty, ds, cyc}] of those four terms. *)
Theorem C7_g_loss_total_and_breakdown :
  forall bce nets args x_real y_org y_trg z_trgs x_refs masks log loss br log',
    compute_g_loss bce nets args x_real y_org y_trg z_trgs x_refs masks log
    = (Ok (loss, br), log') ->
    exists adv sty ds cyc,
      br = [("adv", adv); ("sty", sty); ("ds", ds); ("cyc", cyc)] /\
      data loss = [adv + Q_of_float (lambda_sty args) * sty
                   - Q_of_float (lambda_ds args) * ds
                   + Q_of_float (lambda_cyc args) * cyc].
Proof.
  intros until log'. intros H. g_loss_returns H; do 4 eexists; split; reflexivity.
Qed.

Lemma C7_g_loss_total_and_breakdown_witness :
  exists loss br log',
    compute_g_loss Ex.bce Ex.nets (Ex.args 1 4 1) (Ex.t [1]) (Ex.t [0]) (Ex.t [1])
      (Some [Ex.t [4]; Ex.t [5]]) (Some [Ex.t [2]; Ex.t [3]]) None []
    = (Ok (loss, br), log') /\
    exists adv sty ds cyc,
      br = [("adv", adv); ("sty", sty); ("ds", ds); ("cyc", cyc)] /\
      data loss = [adv + Q_of_float (lambda_sty (Ex.args 1 4 1)) * sty
                   - Q_of_float (lambda_ds (Ex.args 1 4 1)) * ds
                   + Q_of_float (lambda_cyc (Ex.args 1 4 1)) * cyc].
Proof.
  do 3 eexists. split; [cbv; reflexivity|].
  eapply (C7_g_loss_total_and_breakdown Ex.bce Ex.nets (Ex.args 1 4 1)
            (Ex.t [1]) (Ex.t [0]) (Ex.t [1]) (Some [Ex.t [4]; Ex.t [5]])
            (Some [Ex.t [2]; Ex.t [3]]) None []).
  cbv; reflexivity.
Defined.

(** Claim C8: whenever [compute_g_loss] returns, its diversity term [ds] is
    the mean absolute difference between two fakes generated from the same
    source image [x_real], one with the style code mapped from the first
    latent vector and one with the style code mapped from the second; it is
    [>= 0]; and in the autograd graph of the total loss the second fake
    enters the diversity term detached (no gradient flows through it). *)
Theorem C8_g_loss_diversity_term :
  forall bce nets args x_real y_org y_trg z_trgs x_refs masks log loss br log',
    compute_g_loss bce nets args x_real y_org y_trg z_trgs x_refs masks log
    = (Ok (loss, br), log') ->
    exists z1 z2 ds g_rest g_cyc,
      z_trgs = Some [z1; z2] /\
      nth_error br 2 = Some ("ds", ds) /\
      ds = mean_abs_diff
             (generator nets (data x_real)
                (mapping_network nets (data z1) (data y_trg)) (opt_data masks))
             (generator nets (data x_real)
                (mapping_network nets (data z2) (data y_trg)) (opt_data masks)) /\
      0 <= ds /\
      grad loss =
        Op "add"
          [Op "sub"
             [g_rest;
              Op "mul" [Op "mean" [Op "abs" [Op "sub"
                [Op "generator" (grad x_real
                                 :: Op "mapping_network" [grad z1; grad y_trg]
                                 :: map grad (opt_list masks));
                 NoGrad]]]]];
           g_cyc].
Proof.
  intros until log'. intros H.
  g_loss_returns H;
    (do 5 eexists; split; [reflexivity|];
     split; [reflexivity|]; split; [reflexivity|];
     split; [exact (mean_abs_diff_nonneg _ _)|reflexivity]).
Qed.

Lemma C8_g_loss_diversity_term_witness :
  exists loss br log',
    compute_g_loss Ex.bce Ex.nets (Ex.args 1 4 1) (Ex.t [1]) (Ex.t [0]) (Ex.t [1])
      (Some [Ex.t [4]; Ex.t [5]]) (Some [Ex.t [2]; Ex.t [3]]) None []
    = (Ok (loss, br), log') /\
    exists z1 z2 ds g_rest g_cyc,
      Some [Ex.t [4]; Ex.t [5]] = Some [z1; z2] /\
      nth_error br 2 = Some ("ds", ds) /\
      ds = mean_abs_diff
             (generator Ex.nets (data (Ex.t [1]))
                (mapping_network Ex.nets (data z1) (data (Ex.t [1]))) None)
             (generator Ex.nets (data (Ex.t [1]))
                (mapping_network Ex.nets (data z2) (data (Ex.t [1]))) None) /\
      0 <= ds /\
      grad loss =
        Op "add"
          [Op "sub"
             [g_rest;
              Op "mul" [Op "mean" [Op "abs" [Op "sub"
                [Op "generator" (grad (Ex.t [1])
                                 :: Op "mapping_network" [grad z1; grad (Ex.t [1])]
                                 :: []);
                 NoGrad]]]]];
           g_cyc].
Proof.
  do 3 eexists. split; [cbv; reflexivity|].
  eapply (C8_g_loss_diversity_term Ex.bce Ex.nets (Ex.args 1 4 1)
            (Ex.t [1]) (Ex.t [0]) (Ex.t [1]) (Some [Ex.t [4]; Ex.t [5]])
            (Some [Ex.t [2]; Ex.t [3]]) None []).
  cbv; reflexivity.
Defined.

(** ** Sampling *)

(** Claim C3 (the source falls short of it): [Solver.sample] names
    [self.nets] as [nets_ema], so in sample mode it loads the EMA checkpoint
    into [self.nets_ema] and then hands the live ensemble to the [utils]
    calls: on the example the loaded shadow has parameters 2, the ensemble
    used is the live one, re-initialised by [he_init] in [__init__]
    (parameters 5; [fan] keeps 1). *)
Theorem C3_sample_passes_live_ensemble :
  exists sv',
    sample (solver_init Ex.sample_args (Ex.ens 1) (Ex.ema_ens 0) Ex.he) Ex.ema_fs
    = Ok (sv', [TranslateUsingReference (init_children Ex.he (Ex.ens 1));
                VideoRef (init_children Ex.he (Ex.ens 1))]) /\
    s_ema (sv_store sv') = Ex.ema_ens 2 /\
    ens_get (init_children Ex.he (Ex.ens 1)) "generator"
    <> ens_get (s_ema (sv_store sv')) "generator".
Proof.
  eexists. split; [vm_compute; reflexivity|].
  split; [reflexivity|]. vm_compute. discriminate.
Qed.

(** ** The training loop *)

Lemma rbind_Ok : forall {A B} (r : result A) (k : A -> result B) b,
  rbind r k = Ok b -> exists a, r = Ok a /\ k a = Ok b.
Proof. intros A B [a|e] k b H; [eauto|discriminate]. Qed.

Ltac rbind_Ok_in H :=
  let a := fresh "a" in let Ha := fresh "Ha" in
  apply rbind_Ok in H; destruct H as [a [Ha H]].

(** What one iteration does with the state, when it returns. *)
Lemma train_batch_Ok :
  forall nets fetch dp gp ds gs initial st st',
    train_batch nets fetch dp gp ds gs initial st = Ok st' ->
    exists masks c0 c1 c2 t1 t2 dl gl ema2,
      dp (st_args st) (fetch (st_fetched st)) masks c0 = (Ok (t1, dl), c1) /\
      gp (st_args st) (fetch (st_fetched st)) masks c1 = (Ok (t2, gl), c2) /\
      decay_lambda_ds (st_args st) initial = Ok (st_args st') /\
      st' = mkTS (st_args st') (gs (ds (st_live st))) ema2 (S (st_fetched st))
                 (Some (prefix_keys "D/latent_" dl ++ prefix_keys "G/latent_" gl
                        ++ [("G/lambda_ds", Q_of_float (lambda_ds (st_args st)))]))
                 c2 (st_events st).
Proof.
  intros nets fetch dp gp ds gs initial st st' H. unfold train_batch in H.
  match type of H with
  | (let '(_, _) := ?p in _) = _ => destruct p as [mres c0]
  end.
  rbind_Ok_in H. rename a into masks.
  rbind_Ok_in H. destruct a as [[t1 dl] c1].
  unfold run_phase in Ha0.
  destruct (dp (st_args st) (fetch (st_fetched st)) masks c0) as [[r|e] c1'] eqn:Ed;
    [|discriminate]. injection Ha0 as -> ->.
  rbind_Ok_in H. destruct a as [[t2 gl] c2].
  unfold run_phase in Ha0.
  destruct (gp (st_args st) (fetch (st_fetched st)) masks c1) as [[r'|e] c2'] eqn:Eg;
    [|discriminate]. injection Ha0 as -> ->.
  rbind_Ok_in H. rename a into ema2.
  rbind_Ok_in H. injection H as <-.
  exists masks, c0, c1, c2, t1, t2, dl, gl, ema2. auto.
Qed.

Lemma decay_lambda_ds_cases : forall args initial args',
  decay_lambda_ds args initial = Ok args' ->
  (PrimFloat.ltb 0%float (lambda_ds args) = false /\ args' = args) \/
  (PrimFloat.ltb 0%float (lambda_ds args) = true /\
   exists d, py_div initial (ds_epoch args) = Ok d /\
             args' = set_lambda_ds args (PrimFloat.sub (lambda_ds args) d)).
Proof.
  intros args initial args' H. unfold decay_lambda_ds in H.
  destruct (PrimFloat.ltb 0%float (lambda_ds args)) eqn:E.
  - right. split; [reflexivity|]. apply rbind_Ok in H.
    destruct H as [d [Hd H]]. injection H as <-. eauto.
  - left. injection H as <-. auto.
Qed.














(** ** Reporting at the end of an epoch *)








(** ** Checkpoint registration *)

Lemma has_char_app c a b :
  has_char c (a ++ b)%string = has_char c a || has_char c b.
Proof.
  induction a as [|x a IH]; cbn; [reflexivity|].
  rewrite IH, orb_assoc; reflexivity.
Qed.

Lemma string_of_uint_no_sep c :
  c = "_"%char \/ c = "/"%char ->
  forall u, has_char c (NilEmpty.string_of_uint u) = false.
Proof.
  intros Hc u; induction u; cbn; try rewrite IHu;
    destruct Hc; subst; reflexivity.
Qed.

Lemma zeros_no_sep c :
  c = "_"%char \/ c = "/"%char -> forall k, has_char c (zeros k) = false.
Proof.
  intros Hc k; induction k as [|k IH]; cbn; [reflexivity|].
  rewrite IH; destruct Hc; subst; reflexivity.
Qed.

Lemma digits_no_sep c :
  c = "_"%char \/ c = "/"%char ->
  forall n, has_char c (digits n) = false /\ digits n <> ""%string.
Proof.
  intros Hc n; unfold digits, NilZero.string_of_uint.
  destruct (N.to_uint n) as [| u | u | u | u | u | u | u | u | u | u ];
    (split; [| discriminate]);
    cbn; try rewrite (string_of_uint_no_sep c Hc u);
    destruct Hc; subst; reflexivity.
Qed.

Lemma app_nonempty a b : b <> ""%string -> (a ++ b)%string <> ""%string.
Proof. destruct a; cbn; [exact id | discriminate]. Qed.

Lemma format06d_no_sep c :
  c = "_"%char \/ c = "/"%char ->
  forall n, has_char c (format06d n) = false /\ format06d n <> ""%string.
Proof.
  intros Hc n; unfold format06d, zpad.
  destruct (Z.ltb n 0).
  - destruct (digits_no_sep c Hc (Z.to_N (- n))) as [D _].
    split; [| discriminate].
    cbn; rewrite has_char_app, zeros_no_sep, D by exact Hc.
    destruct Hc; subst; reflexivity.
  - destruct (digits_no_sep c Hc (Z.to_N n)) as [D Dn].
    split; [| apply app_nonempty, Dn].
    rewrite has_char_app, zeros_no_sep, D by exact Hc; reflexivity.
Qed.

Lemma starts_with_slash_app u v :
  has_char "/" u = false -> u <> ""%string ->
  starts_with_slash (u ++ v)%string = false.
Proof.
  destruct u as [|a u]; intros H Hn; [contradiction|].
  cbn in *; apply orb_false_iff in H; destruct H as [H _]; exact H.
Qed.

Lemma append_cancel p u v : (p ++ u)%string = (p ++ v)%string -> u = v.
Proof.
  induction p as [|a p IH]; cbn; intros H; [exact H|].
  injection H; auto.
Qed.

Lemma ospj_inj d u v :
  starts_with_slash u = false -> starts_with_slash v = false ->
  ospj d u = ospj d v -> u = v.
Proof.
  unfold ospj; intros Hu Hv; rewrite Hu, Hv.
  destruct (String.eqb d "" || ends_with_slash d); intros E;
    apply append_cancel in E; [exact E|].
  cbn in E; injection E; auto.
Qed.

Lemma underscore_split a b x y :
  has_char "_" a = false -> has_char "_" b = false ->
  (a ++ String "_" x)%string = (b ++ String "_" y)%string -> x = y.
Proof.
  revert b; induction a as [|ca a IH]; intros [|cb b] Ha Hb E; cbn in *.
  - injection E; auto.
  - injection E as E1 _; subst cb; discriminate.
  - injection E as E1 _; subst ca; discriminate.
  - injection E as E1 E2; subst cb.
    apply orb_false_iff in Ha, Hb.
    exact (IH b (proj2 Ha) (proj2 Hb) E2).
Qed.

Lemma fname_suffix_inj d s1 s2 x y :
  fname (mkTemplate d (String "_" x)) s1 = fname (mkTemplate d (String "_" y)) s2 ->
  x = y.
Proof.
  unfold fname; cbn [tpl_dir tpl_suffix]; intros E.
  destruct (format06d_no_sep "/" (or_intror eq_refl) s1) as [S1 N1].
  destruct (format06d_no_sep "/" (or_intror eq_refl) s2) as [S2 N2].
  apply ospj_inj in E;
    [| apply starts_with_slash_app; assumption
     | apply starts_with_slash_app; assumption].
  apply underscore_split in E; [exact E | |];
    apply format06d_no_sep; left; reflexivity.
Qed.

Lemma fs_get_filter fs n m :
  n <> m ->
  fs_get (filter (fun kv => negb (String.eqb (fst kv) n)) fs) m = fs_get fs m.
Proof.
  intros Hnm; induction fs as [|[k v] fs IH]; cbn; [reflexivity|].
  destruct (String.eqb k n) eqn:Ekn; cbn.
  - apply String.eqb_eq in Ekn; subst k.
    apply String.eqb_neq in Hnm; rewrite Hnm; exact IH.
  - rewrite IH; reflexivity.
Qed.

Lemma fs_get_write fs n p m :
  n <> m -> fs_get (fs_write fs n p) m = fs_get fs m.
Proof.
  intros Hnm; unfold fs_write; cbn.
  pose proof Hnm as E; apply String.eqb_neq in E; rewrite E.
  apply fs_get_filter; exact Hnm.
Qed.

Lemma save_all_frame ios step s fs fs' m :
  (forall io, In io ios -> fname (ck_template io) step <> m) ->
  save_all ios step s fs = Ok fs' -> fs_get fs' m = fs_get fs m.
Proof.
  revert fs; induction ios as [|io ios IH]; cbn; intros fs Hn H.
  - injection H as <-; reflexivity.
  - unfold ckptio_save in H.
    destruct (collect _ (ck_modules io)) as [payload|e]; cbn in H; [|discriminate].
    rewrite (IH _ (fun io' Hi => Hn io' (or_intror Hi)) H).
    apply fs_get_write, Hn; left; reflexivity.
Qed.

Lemma collect_ext {A B} (f g : A -> result B) l :
  (forall a, In a l -> f a = g a) -> collect f l = collect g l.
Proof.
  induction l as [|a l IH]; cbn; intros H; [reflexivity|].
  rewrite (H a (or_introl eq_refl)), IH by (intros; apply H; right; assumption).
  reflexivity.
Qed.

Lemma save_all_ema_indep ios step s e fs :
  (forall io m, In io ios -> In m (ck_modules io) -> snd m <> EmaNets) ->
  save_all ios step (store_set s EmaNets e) fs = save_all ios step s fs.
Proof.
  revert fs; induction ios as [|io ios IH]; cbn; intros fs H; [reflexivity|].
  unfold ckptio_save.
  rewrite (collect_ext _ (fun m => match ens_get (store_get s (snd m)) (fst m) with
                                   | Some v => Ok (fst m, v)
                                   | None => Err KeyError
                                   end)).
  - destruct (collect _ (ck_modules io)); cbn; [|reflexivity].
    apply IH; intros io' m Hi Hm; exact (H io' m (or_intror Hi) Hm).
  - intros m Hm.
    assert (Ne : snd m <> EmaNets) by exact (H io m (or_introl eq_refl) Hm).
    destruct (snd m); [reflexivity | contradiction | reflexivity].
Qed.

Lemma fold_load_ema payload mods :
  (forall m, In m mods -> snd m = EmaNets) ->
  forall acc s',
  fold_left (fun acc m =>
               rbind acc (fun s0 =>
                 match ens_get payload (fst m) with
                 | Some v => Ok (store_set s0 (snd m)
                                   (ens_set (store_get s0 (snd m)) (fst m) v))
                 | None => Err KeyError
                 end)) mods acc = Ok s' ->
  exists s0, acc = Ok s0 /\ s_live s' = s_live s0 /\ s_optims s' = s_optims s0.
Proof.
  induction mods as [|a mods IH]; cbn; intros Hm acc s' H.
  - exists s'; auto.
  - apply IH in H; [| intros m Hi; apply Hm; right; exact Hi].
    destruct H as [s1 [Hacc [L O]]].
    destruct acc as [s0|e]; cbn in Hacc; [|discriminate].
    destruct (ens_get payload (fst a)); [|discriminate].
    injection Hacc as <-.
    rewrite (Hm a (or_introl eq_refl)) in L, O; cbn in L, O.
    exists s0; auto.
Qed.

Lemma in_make_ckptio_owner t dp o coll m :
  In m (ck_modules (make_ckptio t dp o coll)) -> snd m = o.
Proof.
  cbn; intros H; apply in_map_iff in H.
  destruct H as [kv [<- _]]; reflexivity.
Qed.

(** Claim C10: in train mode the checkpoint managers register only the live
    networks and the optimizers, so what [_save_checkpoint] writes does not
    depend on the EMA ensemble and no EMA-named file ([_nets_ema.ckpt], at
    any step) is ever written; in any other mode the only checkpoint manager
    is the EMA-named one, [_load_checkpoint] reads nothing but that file and
    changes neither the live networks nor the optimizers. *)
Theorem C10_ema_checkpoint_separation (args : Args) (nets nets_ema : Ens)
    (he : string -> list param -> list param) :
  (mode args = "train" ->
     (forall io m, In io (sv_ckptios (solver_init args nets nets_ema he)) ->
                   In m (ck_modules io) -> snd m <> EmaNets) /\
     (forall st e step fs,
        _save_checkpoint (mkSolver args (store_set st EmaNets e)
                            (sv_ckptios (solver_init args nets nets_ema he))) step fs
        = _save_checkpoint (mkSolver args st
                              (sv_ckptios (solver_init args nets nets_ema he))) step fs) /\
     (forall st step fs fs' step',
        _save_checkpoint (mkSolver args st
                            (sv_ckptios (solver_init args nets nets_ema he))) step fs = Ok fs' ->
        fs_get fs' (fname (mkTemplate (checkpoint_dir args) "_nets_ema.ckpt") step')
        = fs_get fs (fname (mkTemplate (checkpoint_dir args) "_nets_ema.ckpt") step'))) /\
  (mode args <> "train" ->
     map ck_template (sv_ckptios (solver_init args nets nets_ema he))
       = [mkTemplate (checkpoint_dir args) "_nets_ema.ckpt"] /\
     (forall st step fs fs',
        fs_get fs (fname (mkTemplate (checkpoint_dir args) "_nets_ema.ckpt") step)
        = fs_get fs' (fname (mkTemplate (checkpoint_dir args) "_nets_ema.ckpt") step) ->
        _load_checkpoint (mkSolver args st
                            (sv_ckptios (solver_init args nets nets_ema he))) step fs
        = _load_checkpoint (mkSolver args st
                              (sv_ckptios (solver_init args nets nets_ema he))) step fs') /\
     (forall st step fs sv',
        _load_checkpoint (mkSolver args st
                            (sv_ckptios (solver_init args nets nets_ema he))) step fs = Ok sv' ->
        s_live (sv_store sv') = s_live st /\ s_optims (sv_store sv') = s_optims st)).
Proof.
  split; intros Hmode; unfold solver_init.
  - destruct (String.eqb (mode args) "train") eqn:Em;
      [| apply String.eqb_neq in Em; contradiction].
    cbn [sv_ckptios].
    match goal with |- context [ [?i1; ?i2] ] => set (ios := [i1; i2]) end.
    assert (Hreg : forall io m, In io ios -> In m (ck_modules io) -> snd m <> EmaNets).
    { intros io m Hi Hm; destruct Hi as [<- | [<- | []]];
        apply in_make_ckptio_owner in Hm; rewrite Hm; discriminate. }
    split; [exact Hreg | split].
    + intros st e step fs; unfold _save_checkpoint; cbn [sv_ckptios sv_store].
      apply save_all_ema_indep, Hreg.
    + intros st step fs fs' step' H.
      unfold _save_checkpoint in H; cbn [sv_ckptios sv_store] in H.
      refine (save_all_frame _ _ _ _ _ _ _ H).
      intros io Hi E.
      destruct Hi as [<- | [<- | []]]; cbn [ck_template make_ckptio] in E;
        apply fname_suffix_inj in E; discriminate.
  - apply String.eqb_neq in Hmode; rewrite Hmode; cbn [sv_ckptios map].
    split; [reflexivity | split].
    + intros st step fs fs' H.
      unfold _load_checkpoint; cbn [sv_ckptios sv_store load_all].
      unfold ckptio_load; cbn [make_ckptio ck_template ck_modules].
      rewrite H; reflexivity.
    + intros st step fs sv' H.
      unfold _load_checkpoint in H; cbn [sv_ckptios sv_store load_all] in H.
      unfold ckptio_load in H; cbn [make_ckptio ck_template ck_modules] in H.
      destruct (fs_get fs _) as [payload|]; cbn in H; [|discriminate].
      match type of H with
      | context [fold_left ?f ?mods (Ok st)] =>
          destruct (fold_left f mods (Ok st)) as [s1|] eqn:Hf; cbn in H; [|discriminate]
      end.
      injection H as <-; cbn [sv_store].
      apply fold_load_ema in Hf.
      * destruct Hf as [s0 [E [L O]]]; injection E as <-; auto.
      * intros m Hm; apply in_map_iff in Hm.
        destruct Hm as [kv [<- _]]; reflexivity.
Qed.

Lemma C10_ema_checkpoint_separation_witness :
  mode (Ex.args 1 4 1) = "train" /\
  _save_checkpoint
    (mkSolver (Ex.args 1 4 1)
       (store_set (sv_store (solver_init (Ex.args 1 4 1) (Ex.ens 1) (Ex.ema_ens 0) Ex.he))
          EmaNets (Ex.ema_ens 5))
       (sv_ckptios (solver_init (Ex.args 1 4 1) (Ex.ens 1) (Ex.ema_ens 0) Ex.he))) 0 []
  = _save_checkpoint
      (mkSolver (Ex.args 1 4 1)
         (sv_store (solver_init (Ex.args 1 4 1) (Ex.ens 1) (Ex.ema_ens 0) Ex.he))
         (sv_ckptios (solver_init (Ex.args 1 4 1) (Ex.ens 1) (Ex.ema_ens 0) Ex.he))) 0 [] /\
  mode Ex.sample_args <> "train" /\
  _load_checkpoint
    (mkSolver Ex.sample_args
       (sv_store (solver_init Ex.sample_args (Ex.ens 1) (Ex.ema_ens 0) Ex.he))
       (sv_ckptios (solver_init Ex.sample_args (Ex.ens 1) (Ex.ema_ens 0) Ex.he))) 0 Ex.ema_fs
  = _load_checkpoint
      (mkSolver Ex.sample_args
         (sv_store (solver_init Ex.sample_args (Ex.ens 1) (Ex.ema_ens 0) Ex.he))
         (sv_ckptios (solver_init Ex.sample_args (Ex.ens 1) (Ex.ema_ens 0) Ex.he)))
      0 (("expr/checkpoints/000000_nets.ckpt", Ex.ens 9) :: Ex.ema_fs).
Proof.
  assert (Ht : mode (Ex.args 1 4 1) = "train") by reflexivity.
  assert (Hs : mode Ex.sample_args <> "train") by (vm_compute; discriminate).
  split; [exact Ht|]; split.
  - apply (C10_ema_checkpoint_separation (Ex.args 1 4 1) (Ex.ens 1) (Ex.ema_ens 0) Ex.he).
    exact Ht.
  - split; [exact Hs|].
    apply (C10_ema_checkpoint_separation Ex.sample_args (Ex.ens 1) (Ex.ema_ens 0) Ex.he).
    + exact Hs.
    + vm_compute; reflexivity.
Defined.

(** * Further properties of the source *)

(** ** Loss functions *)

(** The discriminator loss of [compute_d_loss] back-propagates into the
    discriminator and into nothing of the generator side: the style code and
    the fake images are computed under [torch.no_grad()], so the loss's
    autograd graph reaches no generator, mapping network, style encoder or
    FAN node that its inputs do not already carry. *)
Theorem compute_d_loss_grad_discriminator_only :
  forall bce nets args x_real y_org y_trg z xr masks log loss br log',
    compute_d_loss bce nets args x_real y_org y_trg z xr masks log
      = (Ok (loss, br), log') ->
    mentions "discriminator" (grad loss) = true /\
    (forall n, In n ["generator"; "mapping_network"; "style_encoder"; "fan"] ->
       mentions n (grad x_real) = false -> mentions n (grad y_org) = false ->
       mentions n (grad y_trg) = false ->
       mentions n (grad loss) = false).
Proof.
  intros bce nets args x_real y_org y_trg z xr masks log loss br log' H.
  destruct z, xr; cbn in H; try discriminate;
    injection H as Hl _ _; subst loss;
    (split; [reflexivity|]);
    intros n Hn Hx Ho Ht;
    destruct Hn as [<-|[<-|[<-|[<-|[]]]]]; cbn; rewrite Ho, Ht;
    destruct (grad x_real); cbn in *; rewrite ?Hx; reflexivity.
Qed.

Lemma compute_d_loss_grad_discriminator_only_witness :
  exists loss br log',
    compute_d_loss Ex.bce Ex.nets (Ex.args 1 4 1) (Ex.t [1]) (Ex.t [0]) (Ex.t [1])
      None (Some (Ex.t [3])) None [] = (Ok (loss, br), log') /\
    mentions "discriminator" (grad loss) = true /\
    mentions "generator" (grad loss) = false.
Proof.
  destruct (compute_d_loss Ex.bce Ex.nets (Ex.args 1 4 1) (Ex.t [1]) (Ex.t [0])
              (Ex.t [1]) None (Some (Ex.t [3])) None [])
    as [[[loss br]|e] log'] eqn:H;
    [| vm_compute in H; discriminate H].
  exists loss, br, log'. split; [reflexivity|].
  destruct (compute_d_loss_grad_discriminator_only _ _ _ _ _ _ _ _ _ _ _ _ _ H)
    as [Hd Hn].
  split; [exact Hd|].
  apply Hn; [left; reflexivity | reflexivity | reflexivity | reflexivity].
Defined.

(** [compute_g_loss] unpacks [z_trgs] and then [x_refs] before anything
    else: a missing list raises [TypeError], a list of other than two
    elements raises [ValueError], in both cases before any network forward
    pass (the call log is unchanged). *)
Theorem compute_g_loss_unpack_errors :
  forall bce nets args x_real y_org y_trg masks log,
    (forall x_refs,
       compute_g_loss bce nets args x_real y_org y_trg None x_refs masks log
       = (Err TypeError, log)) /\
    (forall zs x_refs, List.length zs <> 2%nat ->
       compute_g_loss bce nets args x_real y_org y_trg (Some zs) x_refs masks log
       = (Err ValueError, log)) /\
    (forall z1 z2,
       compute_g_loss bce nets args x_real y_org y_trg (Some [z1; z2]) None masks log
       = (Err TypeError, log)) /\
    (forall z1 z2 xs, List.length xs <> 2%nat ->
       compute_g_loss bce nets args x_real y_org y_trg (Some [z1; z2]) (Some xs) masks log
       = (Err ValueError, log)).
Proof.
  intros bce nets args x_real y_org y_trg masks log.
  split; [|split; [|split]].
  - intros x_refs; reflexivity.
  - intros zs x_refs Hl.
    destruct zs as [|a [|b [|c zs]]]; cbn in Hl; try reflexivity; lia.
  - intros z1 z2; reflexivity.
  - intros z1 z2 xs Hl.
    destruct xs as [|a [|b [|c xs]]]; cbn in Hl; try reflexivity; lia.
Qed.

Lemma compute_g_loss_unpack_errors_witness :
  compute_g_loss Ex.bce Ex.nets (Ex.args 1 4 1) (Ex.t [1]) (Ex.t [0]) (Ex.t [1])
    (Some [Ex.t [4]]) None None [] = (Err ValueError, []) /\
  compute_g_loss Ex.bce Ex.nets (Ex.args 1 4 1) (Ex.t [1]) (Ex.t [0]) (Ex.t [1])
    (Some [Ex.t [4]; Ex.t [5]]) (Some []) None [] = (Err ValueError, []).
Proof.
  destruct (compute_g_loss_unpack_errors Ex.bce Ex.nets (Ex.args 1 4 1) (Ex.t [1])
              (Ex.t [0]) (Ex.t [1]) None []) as (_ & H2 & _ & H4).
  split; [apply H2 | apply H4]; cbn; discriminate.
Defined.

(** [compute_g_loss] unpacks the second reference image [x_ref2] but never
    uses it: its result and its network calls are the same whatever
    [x_ref2] is. *)
Theorem compute_g_loss_ignores_x_ref2 :
  forall bce nets args x_real y_org y_trg z_trgs r1 r2 r2' masks log,
    compute_g_loss bce nets args x_real y_org y_trg z_trgs (Some [r1; r2]) masks log
    = compute_g_loss bce nets args x_real y_org y_trg z_trgs (Some [r1; r2']) masks log.
Proof.
  intros. unfold compute_g_loss.
  destruct z_trgs as [[|a [|b [|c zs]]]|]; reflexivity.
Qed.

(** ** The EMA update *)

Lemma SFeqb_finite_refl s m e :
  SFeqb (S754_finite s m e) (S754_finite s m e) = true.
Proof.
  assert (Hm : Pos.compare_cont Eq m m = Eq) by (induction m; cbn; auto).
  unfold SFeqb; cbn. rewrite Z.compare_refl, Hm. destruct s; reflexivity.
Qed.

Lemma f32_sub_self (a : f32) : f32_finite a = true -> f32_sub a a = S754_zero false.
Proof.
  destruct a as [s| | |s m e]; cbn; try discriminate; intros _.
  - destruct s; reflexivity.
  - unfold f32_sub, SFsub.
    match goal with |- binary_normalize _ _ (?x - ?x) _ _ = _ =>
      replace (x - x)%Z with 0%Z by lia end.
    reflexivity.
Qed.

(** [torch.lerp(a, a, w)] is [a] again (as [==] compares floats, which
    does not tell the zeros apart) for finite [a], when the float32 weight
    [w] and [1 - w] are finite. *)
Lemma f32_lerp_self (a w : f32) :
  f32_finite a = true -> f32_finite w = true ->
  f32_finite (f32_sub f32_one w) = true ->
  SFeqb (f32_lerp a a w) a = true.
Proof.
  intros Ha Hw Hw1. unfold f32_lerp. rewrite (f32_sub_self a Ha).
  destruct (SFltb (SFabs w) f32_half).
  - destruct w as [sw| | |sw mw ew]; try discriminate Hw;
      destruct a as [sa| | |sa ma ea]; try discriminate Ha;
      unfold f32_add, f32_mul; cbn [SFmul SFadd];
      try (destruct sa, sw; reflexivity); apply SFeqb_finite_refl.
  - destruct (f32_sub f32_one w) as [sv| | |sv mv ev]; try discriminate Hw1;
      destruct a as [sa| | |sa ma ea]; try discriminate Ha;
      unfold f32_sub, f32_mul; cbn [SFmul SFsub];
      try (destruct sa, sv; reflexivity); apply SFeqb_finite_refl.
Qed.

Lemma lerp_self (p : param) (w : float) :
  Forall (fun x => f32_finite x = true) p ->
  f32_finite (f32_of_float w) = true ->
  f32_finite (f32_sub f32_one (f32_of_float w)) = true ->
  Forall2 (fun x y => SFeqb x y = true) (lerp p p w) p.
Proof.
  intros Hp Hw Hw1. induction Hp as [|x p Hx Hp IH]; cbn; constructor.
  - apply f32_lerp_self; assumption.
  - exact IH.
Qed.

(** One [moving_average] call keeps the number of shadow parameters, leaves
    the shadow parameters past the end of the live list (where [zip] stops)
    as they are, and leaves a shadow equal to the live model equal to it
    (as floats compare) when its entries, the float32 weight [beta] and
    [1 - beta] are finite. *)
Theorem moving_average_shape :
  forall (live shadow : list param) (beta : float),
    List.length (snd (moving_average (live, shadow) beta)) = List.length shadow /\
    (forall i, (List.length live <= i)%nat ->
       nth_error (snd (moving_average (live, shadow) beta)) i = nth_error shadow i) /\
    (Forall (Forall (fun x => f32_finite x = true)) live ->
     f32_finite (f32_of_float beta) = true ->
     f32_finite (f32_sub f32_one (f32_of_float beta)) = true ->
     Forall2 (Forall2 (fun x y => SFeqb x y = true))
             (snd (moving_average (live, live) beta)) live).
Proof.
  intros live shadow beta. unfold moving_average; cbn [fst snd].
  split; [|split].
  - revert shadow; induction live as [|p live IH]; intros [|q shadow]; cbn; auto.
  - revert shadow; induction live as [|p live IH]; intros [|q shadow] i Hi; cbn in *;
      try reflexivity.
    destruct i as [|i]; [lia|]. cbn. apply IH. lia.
  - intros Hl Hw Hw1. induction Hl as [|p live Hp Hl IH]; cbn; constructor.
    + apply lerp_self; assumption.
    + exact IH.
Qed.

Lemma moving_average_shape_witness :
  (List.length (snd (moving_average ([[f32_of_Z 1]], [[f32_of_Z 0]; [f32_of_Z 7]])
                                    0.5%float)) = 2%nat /\
   nth_error (snd (moving_average ([[f32_of_Z 1]], [[f32_of_Z 0]; [f32_of_Z 7]])
                                  0.5%float)) 1 = Some [f32_of_Z 7]) /\
  Forall2 (Forall2 (fun x y => SFeqb x y = true))
    (snd (moving_average ([[f32_of_Z 3; f32_of_Z (-2)]], [[f32_of_Z 3; f32_of_Z (-2)]])
                         0.999%float))
    [[f32_of_Z 3; f32_of_Z (-2)]].
Proof.
  split.
  - destruct (moving_average_shape [[f32_of_Z 1]] [[f32_of_Z 0]; [f32_of_Z 7]] 0.5%float)
      as [H1 [H2 _]].
    split; [exact H1 | apply H2; cbn; lia].
  - apply (moving_average_shape [[f32_of_Z 3; f32_of_Z (-2)]] []);
      [repeat constructor | vm_compute; reflexivity | vm_compute; reflexivity].
Defined.

Lemma ens_get_set_other e n n' v :
  n' <> n -> ens_get (ens_set e n v) n' = ens_get e n'.
Proof.
  intros Hne. induction e as [|[k w] e IH]; cbn; [reflexivity|].
  destruct (String.eqb k n) eqn:Ek; cbn.
  - apply String.eqb_eq in Ek; subst k.
    destruct (String.eqb n n') eqn:En; [apply String.eqb_eq in En; congruence|].
    reflexivity.
  - destruct (String.eqb k n'); [reflexivity | exact IH].
Qed.

Lemma ens_get_set_same e n v w :
  ens_get e n = Some w -> ens_get (ens_set e n v) n = Some v.
Proof.
  induction e as [|[k u] e IH]; cbn; [discriminate|].
  destruct (String.eqb k n) eqn:Ek; cbn; rewrite Ek; auto.
Qed.

Lemma ens_set_keys e n v : map fst (ens_set e n v) = map fst e.
Proof.
  induction e as [|[k u] e IH]; cbn; [reflexivity|].
  destruct (String.eqb k n); cbn; [reflexivity | rewrite IH; reflexivity].
Qed.

Lemma ema_role_Ok live e r e' :
  ema_role live e r = Ok e' ->
  exists lp ep, ens_get live r = Some lp /\ ens_get e r = Some ep /\
    ens_get e' r = Some (moving_average_params lp ep 0.999%float) /\
    (forall n, n <> r -> ens_get e' n = ens_get e n) /\
    map fst e' = map fst e.
Proof.
  unfold ema_role. intros H.
  destruct (ens_get live r) as [lp|] eqn:El; [|discriminate].
  destruct (ens_get e r) as [ep|] eqn:Ee; [|discriminate].
  injection H as <-. exists lp, ep.
  split; [reflexivity|]. split; [reflexivity|]. split; [|split].
  - eapply ens_get_set_same; exact Ee.
  - intros n Hn; apply ens_get_set_other; exact Hn.
  - apply ens_set_keys.
Qed.

(** [ema_update] (the three [moving_average] calls of the training loop,
    under [if args.ema]) keeps the shadow ensemble's module names and
    changes only its generator, mapping network and style encoder; with
    [args.ema] off it changes nothing; with it on each of the three becomes
    the moving average of the live module and its shadow. *)
Theorem ema_update_roles :
  forall args live e e',
    ema_update args live e = Ok e' ->
    (ema args = false -> e' = e) /\
    map fst e' = map fst e /\
    (forall n, ~ In n ["generator"; "mapping_network"; "style_encoder"] ->
       ens_get e' n = ens_get e n) /\
    (ema args = true ->
       forall r, In r ["generator"; "mapping_network"; "style_encoder"] ->
       exists lp ep, ens_get live r = Some lp /\ ens_get e r = Some ep /\
         ens_get e' r = Some (moving_average_params lp ep 0.999%float)).
Proof.
  intros args live e e' H. unfold ema_update in H.
  destruct (ema args) eqn:Ea.
  2:{ injection H as <-. split; [reflexivity|]. split; [reflexivity|].
      split; [reflexivity | discriminate]. }
  apply rbind_Ok in H; destruct H as [e1 [H1 H]].
  apply rbind_Ok in H; destruct H as [e2 [H2 H3]].
  destruct (ema_role_Ok _ _ _ _ H1) as (g1 & g2 & Hg1 & Hg2 & Hg3 & Hgo & Hgk).
  destruct (ema_role_Ok _ _ _ _ H2) as (m1 & m2 & Hm1 & Hm2 & Hm3 & Hmo & Hmk).
  destruct (ema_role_Ok _ _ _ _ H3) as (s1 & s2 & Hs1 & Hs2 & Hs3 & Hso & Hsk).
  split; [discriminate|]. split; [congruence|]. split.
  - intros n Hn. rewrite Hso, Hmo, Hgo; [reflexivity| | |];
      intros ->; apply Hn; cbn; tauto.
  - intros _ r Hr. destruct Hr as [<-|[<-|[<-|[]]]].
    + exists g1, g2. split; [exact Hg1|]. split; [exact Hg2|].
      rewrite Hso, Hmo by discriminate. exact Hg3.
    + exists m1, m2. split; [exact Hm1|].
      split; [rewrite <- (Hgo "mapping_network" ltac:(discriminate)); exact Hm2|].
      rewrite Hso by discriminate. exact Hm3.
    + exists s1, s2. split; [exact Hs1|].
      split; [rewrite <- (Hgo "style_encoder" ltac:(discriminate)),
                      <- (Hmo "style_encoder" ltac:(discriminate));
              exact Hs2|].
      exact Hs3.
Qed.

(** With [args.ema] on, [ema_update] raises [AttributeError] ([Munch] attribute
    access) when the live or the shadow ensemble lacks one of the three
    modules. *)
Theorem ema_update_missing_role :
  forall args live e r,
    ema args = true ->
    In r ["generator"; "mapping_network"; "style_encoder"] ->
    ens_get live r = None \/ ens_get e r = None ->
    ema_update args live e = Err AttributeError.
Proof.
  intros args live e r Ea Hr Hmiss. unfold ema_update. rewrite Ea.
  unfold ema_role.
  destruct Hr as [<-|[<-|[<-|[]]]].
  - destruct Hmiss as [H|H]; rewrite H; try reflexivity;
      destruct (ens_get live "generator"); reflexivity.
  - destruct (ens_get live "generator") as [lp|]; [|reflexivity].
    destruct (ens_get e "generator") as [ep|] eqn:Eg; [|reflexivity]. cbn.
    rewrite ens_get_set_other by discriminate.
    destruct Hmiss as [H|H]; rewrite H; try reflexivity;
      destruct (ens_get live "mapping_network"); reflexivity.
  - destruct (ens_get live "generator") as [lp|]; [|reflexivity].
    destruct (ens_get e "generator") as [ep|]; [|reflexivity]. cbn.
    rewrite ens_get_set_other by discriminate.
    destruct (ens_get live "mapping_network") as [lm|]; [|reflexivity].
    destruct (ens_get e "mapping_network") as [em|]; [|reflexivity]. cbn.
    rewrite !ens_get_set_other by discriminate.
    destruct Hmiss as [H|H]; rewrite H; try reflexivity;
      destruct (ens_get live "style_encoder"); reflexivity.
Qed.

Lemma ema_update_roles_witness :
  exists e',
    ema_update (Ex.args 1 4 1) (Ex.ens 1) (Ex.ema_ens 0) = Ok e' /\
    map fst e' = map fst (Ex.ema_ens 0) /\
    ens_get e' "discriminator" = ens_get (Ex.ema_ens 0) "discriminator".
Proof.
  destruct (ema_update (Ex.args 1 4 1) (Ex.ens 1) (Ex.ema_ens 0)) as [e'|err] eqn:H;
    [| vm_compute in H; discriminate H].
  exists e'. split; [reflexivity|].
  destruct (ema_update_roles _ _ _ _ H) as (_ & Hk & Ho & _).
  split; [exact Hk|]. apply Ho. cbn. intuition discriminate.
Defined.

Lemma ema_update_missing_role_witness :
  ema_update (Ex.args 1 4 1) [] (Ex.ema_ens 0) = Err AttributeError.
Proof.
  apply (ema_update_missing_role _ _ _ "style_encoder");
    [reflexivity | right; right; left; reflexivity | left; reflexivity].
Defined.

(** ** The training loop *)

Lemma set_lambda_ds_set a v w : set_lambda_ds (set_lambda_ds a v) w = set_lambda_ds a w.
Proof. destruct a; reflexivity. Qed.

Lemma set_lambda_ds_same a : set_lambda_ds a (lambda_ds a) = a.
Proof. destruct a; reflexivity. Qed.

Lemma train_batch_Ok_ema :
  forall nets fetch dp gp ds gs initial st st',
    train_batch nets fetch dp gp ds gs initial st = Ok st' ->
    ema_update (st_args st) (gs (ds (st_live st))) (st_ema st) = Ok (st_ema st').
Proof.
  intros nets fetch dp gp ds gs initial st st' H. unfold train_batch in H.
  match type of H with
  | (let '(_, _) := ?p in _) = _ => destruct p as [mres c0]
  end.
  rbind_Ok_in H. rbind_Ok_in H. destruct a0 as [[t1 dl] c1].
  unfold run_phase in Ha0.
  destruct (dp (st_args st) (fetch (st_fetched st)) a c0) as [[r|e] c1'];
    [|discriminate]. injection Ha0 as -> ->.
  rbind_Ok_in H. destruct a0 as [[t2 gl] c2].
  unfold run_phase in Ha0.
  destruct (gp (st_args st) (fetch (st_fetched st)) a c1) as [[r'|e] c2'];
    [|discriminate]. injection Ha0 as -> ->.
  rbind_Ok_in H. rbind_Ok_in H. injection H as <-. exact Ha0.
Qed.

(** What a run of batches does with the state, when it returns. *)
Lemma train_batches_Ok :
  forall nets fetch dp gp ds gs initial n st st',
    train_batches nets fetch dp gp ds gs initial n st = Ok st' ->
    st_args st' = set_lambda_ds (st_args st) (lambda_ds (st_args st')) /\
    st_fetched st' = (n + st_fetched st)%nat /\
    st_events st' = st_events st /\
    (ema (st_args st) = false -> st_ema st' = st_ema st) /\
    (forall r, ~ In r ema_roles -> ens_get (st_ema st') r = ens_get (st_ema st) r) /\
    map fst (st_ema st') = map fst (st_ema st).
Proof.
  induction n as [|n IH]; intros st st' H; cbn in H.
  - injection H as <-. rewrite set_lambda_ds_same.
    repeat split; intros; reflexivity.
  - rbind_Ok_in H. rename a into st1.
    pose proof (train_batch_Ok_ema _ _ _ _ _ _ _ _ _ Ha) as Hema.
    apply train_batch_Ok in Ha.
    destruct Ha as (masks & c0 & c1 & c2 & t1 & t2 & dl & gl & ema2 & _ & _ & Hd & Hst).
    apply IH in H. destruct H as (Ha & Hf & He & Hemaf & Hro & Hk).
    assert (Ha1 : st_args st1 = set_lambda_ds (st_args st) (lambda_ds (st_args st1))).
    { apply decay_lambda_ds_cases in Hd.
      destruct Hd as [[_ E]|[_ [d [_ E]]]]; rewrite E;
        [rewrite set_lambda_ds_same | ]; reflexivity. }
    destruct (ema_update_roles _ _ _ _ Hema) as (Hoff & Hk1 & Ho1 & _).
    assert (Hf1 : st_fetched st1 = S (st_fetched st)) by (rewrite Hst; reflexivity).
    assert (He1 : st_events st1 = st_events st) by (rewrite Hst; reflexivity).
    split; [|split; [|split; [|split; [|split]]]].
    + rewrite Ha, Ha1, set_lambda_ds_set. reflexivity.
    + rewrite Hf, Hf1. lia.
    + rewrite He, He1. reflexivity.
    + intros Eoff. rewrite Hemaf by (rewrite Ha1; exact Eoff). apply Hoff, Eoff.
    + intros r Hr. rewrite Hro by exact Hr. apply Ho1, Hr.
    + rewrite Hk, Hk1. reflexivity.
Qed.

(** What the end of an epoch does with the state, when it returns. *)
Lemma end_of_epoch_Ok :
  forall epoch st st',
    end_of_epoch epoch st = Ok st' ->
    let a := st_args st in
    wandb_log a <> 0%Z /\ save_every a <> 0%Z /\ eval_every a <> 0%Z /\
    exists evs,
      st' = mkTS (st_args st) (st_live st) (st_ema st) (st_fetched st)
                 (st_all_losses st) (st_calls st) (st_events st ++ evs) /\
      wandb_steps evs = (if Z.eqb (Z.modulo epoch (wandb_log a)) 0 then [epoch] else []) /\
      save_steps evs = (if Z.eqb (Z.modulo epoch (save_every a)) 0 then [epoch] else []) /\
      metric_calls evs = (if Z.eqb (Z.modulo epoch (eval_every a)) 0
                          then [(epoch, "latent"); (epoch, "reference")] else []).
Proof.
  intros epoch st st' H a. subst a. unfold end_of_epoch, py_mod in H.
  destruct (Z.eqb (wandb_log (st_args st)) 0) eqn:Ew; [discriminate H|].
  apply Z.eqb_neq in Ew. cbn [rbind] in H.
  destruct (Z.eqb (Z.modulo epoch (wandb_log (st_args st))) 0) eqn:E1;
    [destruct (st_all_losses st) as [l|] eqn:El; [|discriminate H]|];
    cbn [rbind emit st_args] in H;
    (destruct (Z.eqb (save_every (st_args st)) 0) eqn:Es; [discriminate H|]);
    apply Z.eqb_neq in Es; cbn [rbind] in H;
    (destruct (Z.eqb (eval_every (st_args st)) 0) eqn:Ev; [discriminate H|]);
    apply Z.eqb_neq in Ev; cbn [rbind] in H;
    (split; [exact Ew|]); (split; [exact Es|]); (split; [exact Ev|]);
    destruct (Z.eqb (Z.modulo epoch (save_every (st_args st))) 0),
             (Z.eqb (Z.modulo epoch (eval_every (st_args st))) 0);
    injection H as <-; eexists;
    (split; [first [ unfold emit; cbn [st_args st_live st_ema st_fetched st_all_losses
                                         st_calls st_events];
                     rewrite ?El, <- ?app_assoc; reflexivity
                   | destruct st as [a0 l0 e0 f0 al0 c0 ev0]; cbn;
                     rewrite <- (app_nil_r ev0) at 1; reflexivity ]|]);
    cbn; auto.
Qed.

Lemma flat_map_app' {A B} (f : A -> list B) l1 l2 :
  flat_map f (l1 ++ l2) = flat_map f l1 ++ flat_map f l2.
Proof. induction l1 as [|a l1 IH]; cbn; [reflexivity|]; rewrite IH, app_assoc; reflexivity. Qed.

(** What a run of epochs does with the state, when it returns. *)
Lemma train_epochs_Ok :
  forall nets fetch dp gp ds gs initial iters epochs st st',
    train_epochs nets fetch dp gp ds gs initial iters epochs st = Ok st' ->
    let a := st_args st in
    st_args st' = set_lambda_ds a (lambda_ds (st_args st')) /\
    st_fetched st' = (iters * List.length epochs + st_fetched st)%nat /\
    wandb_steps (st_events st') = wandb_steps (st_events st)
      ++ filter (fun e => Z.eqb (Z.modulo e (wandb_log a)) 0) epochs /\
    save_steps (st_events st') = save_steps (st_events st)
      ++ filter (fun e => Z.eqb (Z.modulo e (save_every a)) 0) epochs /\
    metric_calls (st_events st') = metric_calls (st_events st)
      ++ flat_map (fun e => if Z.eqb (Z.modulo e (eval_every a)) 0
                            then [(e, "latent"); (e, "reference")] else []) epochs /\
    (ema a = false -> st_ema st' = st_ema st) /\
    (forall r, ~ In r ema_roles -> ens_get (st_ema st') r = ens_get (st_ema st) r) /\
    map fst (st_ema st') = map fst (st_ema st).
Proof.
  intros nets fetch dp gp ds gs initial iters epochs.
  induction epochs as [|e es IH]; intros st st' H; cbn in H; cbv zeta.
  - injection H as <-. rewrite set_lambda_ds_same, Nat.mul_0_r, !app_nil_r.
    repeat split; intros; reflexivity.
  - rbind_Ok_in H. rename a into st2. unfold train_epoch in Ha.
    rbind_Ok_in Ha. rename a into st1.
    destruct (train_batches_Ok _ _ _ _ _ _ _ _ _ _ Ha0)
      as (Ha1 & Hf1 & He1 & Hem1 & Hro1 & Hk1).
    destruct (end_of_epoch_Ok _ _ _ Ha) as (_ & _ & _ & evs & Hst2 & Hw & Hs & Hm).
    apply IH in H. cbv zeta in H.
    destruct H as (Ha3 & Hf3 & Hw3 & Hs3 & Hm3 & Hem3 & Hro3 & Hk3).
    assert (Ha2 : st_args st2 = st_args st1) by (rewrite Hst2; reflexivity).
    assert (Hargs : st_args st2 = set_lambda_ds (st_args st) (lambda_ds (st_args st2)))
      by (rewrite Ha2; exact Ha1).
    rewrite Hargs in Ha3, Hw3, Hs3, Hm3, Hem3.
    rewrite Ha1 in Hw, Hs, Hm.
    cbn [wandb_log save_every eval_every ema set_lambda_ds] in *.
    rewrite Hst2 in Hf3, Hw3, Hs3, Hm3, Hem3, Hro3, Hk3.
    cbn [st_fetched st_events st_ema] in Hf3, Hw3, Hs3, Hm3, Hem3, Hro3, Hk3.
    rewrite He1 in Hw3, Hs3, Hm3.
    unfold wandb_steps, save_steps, metric_calls in *.
    rewrite flat_map_app' in Hw3. rewrite flat_map_app' in Hs3.
    rewrite flat_map_app' in Hm3.
    split; [|split; [|split; [|split; [|split; [|split; [|split]]]]]].
    + rewrite Ha3, Hargs, set_lambda_ds_set. reflexivity.
    + rewrite Hf3, Hf1. cbn [List.length]. lia.
    + rewrite Hw3, Hw, <- app_assoc. cbn [filter].
      destruct (Z.eqb (Z.modulo e (wandb_log (st_args st))) 0); reflexivity.
    + rewrite Hs3, Hs, <- app_assoc. cbn [filter].
      destruct (Z.eqb (Z.modulo e (save_every (st_args st))) 0); reflexivity.
    + rewrite Hm3, Hm, <- app_assoc. reflexivity.
    + intros Eoff. rewrite Hem3 by exact Eoff. apply Hem1, Eoff.
    + intros r Hr. rewrite Hro3, Hro1 by exact Hr. reflexivity.
    + rewrite Hk3, Hk1. reflexivity.
Qed.

Lemma py_range_length a b : List.length (py_range a b) = Z.to_nat (b - a).
Proof. unfold py_range. rewrite length_map, length_seq. reflexivity. Qed.

(** A training run that returns changes no field of [args] but
    [lambda_ds], and takes [iters_per_epoch] batches from the fetcher for
    each epoch of [range(start_epoch, num_epochs)], where [start_epoch] is
    [resume_epoch] when it is positive and 0 otherwise. *)
Theorem train_args_and_batches :
  forall nets fetch dp gp ds gs iters st st',
    train nets fetch dp gp ds gs iters st = Ok st' ->
    let a := st_args st in
    let start := if Z.ltb 0 (resume_epoch a) then resume_epoch a else 0%Z in
    st_args st' = set_lambda_ds a (lambda_ds (st_args st')) /\
    st_fetched st' = (st_fetched st + iters * Z.to_nat (num_epochs a - start))%nat.
Proof.
  intros nets fetch dp gp ds gs iters st st' H. unfold train in H.
  destruct (train_epochs_Ok _ _ _ _ _ _ _ _ _ _ _ H) as (Ha & Hf & _).
  cbv zeta. split; [exact Ha|]. rewrite Hf, py_range_length. lia.
Qed.

Lemma train_args_and_batches_witness :
  exists st',
    train Ex.nets (Ex.fetch 1) (source_d_phase Ex.bce Ex.nets)
      (Ex.g_phase_with_refs Ex.bce Ex.nets) (fun e => e) (fun e => e) 2
      (Ex.state0 (Ex.args 1 4 3)) = Ok st' /\
    st_fetched st' = 6%nat /\
    st_args st' = set_lambda_ds (Ex.args 1 4 3) (lambda_ds (st_args st')).
Proof.
  destruct (train Ex.nets (Ex.fetch 1) (source_d_phase Ex.bce Ex.nets)
              (Ex.g_phase_with_refs Ex.bce Ex.nets) (fun e => e) (fun e => e) 2
              (Ex.state0 (Ex.args 1 4 3))) as [st'|err] eqn:H;
    [| vm_compute in H; discriminate H].
  exists st'. split; [reflexivity|].
  destruct (train_args_and_batches _ _ _ _ _ _ _ _ _ H) as [Ha Hf].
  split; [rewrite Hf; reflexivity | exact Ha].
Defined.

(** The calls a training run that returns makes to its collaborators: it
    logs to wandb at the epochs of [range(start_epoch, num_epochs)] that are
    multiples of [wandb_log], saves a checkpoint at those that are multiples
    of [save_every], and computes the metrics ('latent' then 'reference')
    at those that are multiples of [eval_every], in increasing order. *)
Theorem train_event_schedule :
  forall nets fetch dp gp ds gs iters st st',
    train nets fetch dp gp ds gs iters st = Ok st' ->
    let a := st_args st in
    let epochs := py_range (if Z.ltb 0 (resume_epoch a) then resume_epoch a else 0%Z)
                           (num_epochs a) in
    wandb_steps (st_events st') = wandb_steps (st_events st)
      ++ filter (fun e => Z.eqb (Z.modulo e (wandb_log a)) 0) epochs /\
    save_steps (st_events st') = save_steps (st_events st)
      ++ filter (fun e => Z.eqb (Z.modulo e (save_every a)) 0) epochs /\
    metric_calls (st_events st') = metric_calls (st_events st)
      ++ flat_map (fun e => if Z.eqb (Z.modulo e (eval_every a)) 0
                            then [(e, "latent"); (e, "reference")] else []) epochs.
Proof.
  intros nets fetch dp gp ds gs iters st st' H. unfold train in H.
  destruct (train_epochs_Ok _ _ _ _ _ _ _ _ _ _ _ H) as (_ & _ & Hw & Hs & Hm & _).
  auto.
Qed.

Lemma train_event_schedule_witness :
  exists st',
    train Ex.nets (Ex.fetch 1) (source_d_phase Ex.bce Ex.nets)
      (Ex.g_phase_with_refs Ex.bce Ex.nets) (fun e => e) (fun e => e) 1
      (Ex.state0 (Ex.args 1 4 3)) = Ok st' /\
    save_steps (st_events st') = [0; 1; 2]%Z.
Proof.
  destruct (train Ex.nets (Ex.fetch 1) (source_d_phase Ex.bce Ex.nets)
              (Ex.g_phase_with_refs Ex.bce Ex.nets) (fun e => e) (fun e => e) 1
              (Ex.state0 (Ex.args 1 4 3))) as [st'|err] eqn:H;
    [| vm_compute in H; discriminate H].
  exists st'. split; [reflexivity|].
  destruct (train_event_schedule _ _ _ _ _ _ _ _ _ H) as (_ & Hs & _).
  rewrite Hs. reflexivity.
Defined.

(** A training run that returns never changes the shadow ensemble's module
    names nor any shadow module other than the generator, mapping network
    and style encoder; with [args.ema] off it changes no shadow module. *)
Theorem train_shadow_frame :
  forall nets fetch dp gp ds gs iters st st',
    train nets fetch dp gp ds gs iters st = Ok st' ->
    (ema (st_args st) = false -> st_ema st' = st_ema st) /\
    (forall r, ~ In r ["generator"; "mapping_network"; "style_encoder"] ->
       ens_get (st_ema st') r = ens_get (st_ema st) r) /\
    map fst (st_ema st') = map fst (st_ema st).
Proof.
  intros nets fetch dp gp ds gs iters st st' H. unfold train in H.
  destruct (train_epochs_Ok _ _ _ _ _ _ _ _ _ _ _ H) as (_ & _ & _ & _ & _ & He & Hr & Hk).
  auto.
Qed.

Lemma train_shadow_frame_witness :
  exists st',
    train Ex.nets (Ex.fetch 1) (source_d_phase Ex.bce Ex.nets)
      (Ex.g_phase_with_refs Ex.bce Ex.nets) (fun e => e) (fun e => e) 1
      (mkTS (Ex.args 1 4 1) (Ex.ens 1) (Ex.ens 0) 0 None [] []) = Ok st' /\
    ens_get (st_ema st') "discriminator" = Some [[f32_of_Z 0]].
Proof.
  destruct (train Ex.nets (Ex.fetch 1) (source_d_phase Ex.bce Ex.nets)
              (Ex.g_phase_with_refs Ex.bce Ex.nets) (fun e => e) (fun e => e) 1
              (mkTS (Ex.args 1 4 1) (Ex.ens 1) (Ex.ens 0) 0 None [] []))
    as [st'|err] eqn:H;
    [| vm_compute in H; discriminate H].
  exists st'. split; [reflexivity|].
  destruct (train_shadow_frame _ _ _ _ _ _ _ _ _ H) as (_ & Hr & _).
  rewrite Hr; [reflexivity|]. cbn. intuition discriminate.
Defined.

Lemma py_range_cons a b :
  (a < b)%Z -> exists rest, py_range a b = a :: rest.
Proof.
  intros H. unfold py_range.
  destruct (Z.to_nat (b - a)) as [|k] eqn:E; [lia|].
  cbn. rewrite Z.add_0_r. eauto.
Qed.

(** A run with no batch per epoch ([iters_per_epoch = 0], an empty loader)
    and at least one epoch to do, started before any loss was recorded,
    fails at the end of its first epoch: [epoch % args.wandb_log] raises
    [ZeroDivisionError] when [wandb_log] is 0, and otherwise the first epoch
    is a multiple of [wandb_log] and [all_losses] was never bound. *)
Theorem train_no_batches :
  forall nets fetch dp gp ds gs st,
    let a := st_args st in
    st_all_losses st = None -> (resume_epoch a <= 0)%Z -> (0 < num_epochs a)%Z ->
    train nets fetch dp gp ds gs 0 st
    = Err (if Z.eqb (wandb_log a) 0 then ZeroDivisionError else UnboundLocalError).
Proof.
  intros nets fetch dp gp ds gs st a Hl Hr Hn. unfold train. fold a.
  destruct (Z.ltb 0 (resume_epoch a)) eqn:E; [apply Z.ltb_lt in E; lia|].
  destruct (py_range_cons 0 (num_epochs a) Hn) as [rest ->].
  cbn [train_epochs]. unfold train_epoch. cbn [train_batches rbind].
  unfold end_of_epoch, py_mod. fold a.
  destruct (Z.eqb (wandb_log a) 0); [reflexivity|].
  cbn. rewrite Hl. reflexivity.
Qed.

Lemma train_no_batches_witness :
  train Ex.nets (Ex.fetch 1) (source_d_phase Ex.bce Ex.nets)
    (Ex.g_phase_with_refs Ex.bce Ex.nets) (fun e => e) (fun e => e) 0
    (Ex.state0 (Ex.args 1 4 1)) = Err UnboundLocalError.
Proof.
  exact (train_no_batches Ex.nets (Ex.fetch 1) (source_d_phase Ex.bce Ex.nets)
           (Ex.g_phase_with_refs Ex.bce Ex.nets) (fun e => e) (fun e => e)
           (Ex.state0 (Ex.args 1 4 1)) eq_refl ltac:(cbn; lia) ltac:(cbn; lia)).
Defined.

(** A run that returns and has at least one epoch to do has nonzero
    [wandb_log], [save_every] and [eval_every]: a zero period makes the
    modulo at the end of the first epoch raise. *)
Theorem train_periods_nonzero :
  forall nets fetch dp gp ds gs iters st st',
    train nets fetch dp gp ds gs iters st = Ok st' ->
    let a := st_args st in
    let start := if Z.ltb 0 (resume_epoch a) then resume_epoch a else 0%Z in
    (start < num_epochs a)%Z ->
    wandb_log a <> 0%Z /\ save_every a <> 0%Z /\ eval_every a <> 0%Z.
Proof.
  intros nets fetch dp gp ds gs iters st st' H a start Hep. revert H.
  unfold train. fold a. fold start.
  destruct (py_range_cons _ _ Hep) as [rest ->].
  cbn [train_epochs]. unfold train_epoch. intros H.
  rbind_Ok_in H. rbind_Ok_in Ha. rename a1 into st1.
  destruct (train_batches_Ok _ _ _ _ _ _ _ _ _ _ Ha0) as [Hargs _].
  destruct (end_of_epoch_Ok _ _ _ Ha) as (Hw & Hs & Hv & _).
  rewrite Hargs in Hw, Hs, Hv. cbn in Hw, Hs, Hv. auto.
Qed.

Lemma train_periods_nonzero_witness :
  exists st',
    train Ex.nets (Ex.fetch 1) (source_d_phase Ex.bce Ex.nets)
      (Ex.g_phase_with_refs Ex.bce Ex.nets) (fun e => e) (fun e => e) 1
      (Ex.state0 (Ex.args 1 4 1)) = Ok st' /\
    wandb_log (Ex.args 1 4 1) <> 0%Z.
Proof.
  destruct (train Ex.nets (Ex.fetch 1) (source_d_phase Ex.bce Ex.nets)
              (Ex.g_phase_with_refs Ex.bce Ex.nets) (fun e => e) (fun e => e) 1
              (Ex.state0 (Ex.args 1 4 1))) as [st'|err] eqn:H;
    [| vm_compute in H; discriminate H].
  exists st'. split; [reflexivity|].
  apply (train_periods_nonzero _ _ _ _ _ _ _ _ _ H). vm_compute. reflexivity.
Defined.

(** ** Checkpoint file names *)

Lemma list_ascii_of_string_app a b :
  list_ascii_of_string (a ++ b)%string = list_ascii_of_string a ++ list_ascii_of_string b.
Proof. induction a as [|c a IH]; cbn; [reflexivity | rewrite IH; reflexivity]. Qed.

Lemma append_cancel_r u v s : (u ++ s)%string = (v ++ s)%string -> u = v.
Proof.
  intros E. apply (f_equal list_ascii_of_string) in E.
  rewrite !list_ascii_of_string_app in E. apply app_inv_tail in E.
  rewrite <- (string_of_list_ascii_of_string u), <- (string_of_list_ascii_of_string v), E.
  reflexivity.
Qed.

Lemma uint_of_string_zeros k s :
  NilEmpty.uint_of_string (zeros k ++ s)
  = option_map (Nat.iter k Decimal.D0) (NilEmpty.uint_of_string s).
Proof.
  induction k as [|k IH]; cbn.
  - destruct (NilEmpty.uint_of_string s); reflexivity.
  - rewrite IH. destruct (NilEmpty.uint_of_string s); reflexivity.
Qed.

Lemma digits_parse n : NilEmpty.uint_of_string (digits n) = Some (N.to_uint n).
Proof.
  unfold digits. destruct (N.to_uint n) eqn:E; [| apply NilEmpty.usu ..].
  exfalso. assert (n = 0%N) as ->.
  { rewrite <- (DecimalN.Unsigned.of_to n), E. reflexivity. }
  discriminate E.
Qed.

(** Reading back a zero-padded decimal: the padding is harmless. *)
Lemma zpad_digits_parse w n :
  option_map N.of_uint (NilEmpty.uint_of_string (zpad w (digits n))) = Some n.
Proof.
  unfold zpad. rewrite uint_of_string_zeros, digits_parse. cbn [option_map].
  rewrite <- DecimalN.Unsigned.of_uint_norm, DecimalFacts.unorm_iter_D0,
    DecimalN.Unsigned.of_uint_norm, DecimalN.Unsigned.of_to.
  reflexivity.
Qed.

Lemma format06d_inj m n : format06d m = format06d n -> m = n.
Proof.
  unfold format06d.
  destruct (Z.ltb_spec m 0), (Z.ltb_spec n 0); intros E;
    [cbn [append] in E; injection E as E|..];
    apply (f_equal (fun s => option_map N.of_uint (NilEmpty.uint_of_string s))) in E.
  - rewrite !zpad_digits_parse in E. injection E as E.
    apply (f_equal Z.of_N) in E. rewrite !Z2N.id in E by lia. lia.
  - rewrite zpad_digits_parse in E. cbn [append NilEmpty.uint_of_string] in E.
    destruct (NilEmpty.uint_of_string (zpad 5 (digits (Z.to_N (- m)))));
      cbn in E; discriminate E.
  - rewrite zpad_digits_parse in E. cbn [append NilEmpty.uint_of_string] in E.
    destruct (NilEmpty.uint_of_string (zpad 5 (digits (Z.to_N (- n)))));
      cbn in E; discriminate E.
  - rewrite !zpad_digits_parse in E. injection E as E.
    apply (f_equal Z.of_N) in E. rewrite !Z2N.id in E by lia. exact E.
Qed.

(** Every step has its own checkpoint file: under one template, two
    different steps give two different names
    [ospj(dir, '{:06d}'.format(step) + suffix)], so saving at one step never
    writes the file of another. *)
Theorem fname_step_injective (t : Template) (m n : Z) :
  m <> n -> fname t m <> fname t n.
Proof.
  intros Hmn E. apply Hmn. unfold fname in E.
  assert (Hs : forall k, starts_with_slash (format06d k ++ tpl_suffix t)%string = false).
  { intros k. destruct (format06d_no_sep "/"%char (or_intror eq_refl) k) as [H1 H2].
    apply starts_with_slash_app; assumption. }
  apply ospj_inj in E; [| apply Hs | apply Hs].
  apply append_cancel_r in E. apply format06d_inj, E.
Qed.

Lemma fname_step_injective_witness :
  (12 <> 120)%Z /\
  fname (mkTemplate "expr/checkpoints" "_nets.ckpt") 12
  <> fname (mkTemplate "expr/checkpoints" "_nets.ckpt") 120.
Proof.
  split; [discriminate|].
  apply fname_step_injective. discriminate.
Defined.

(** ** Evaluation *)

(** Outside train mode, [evaluate] computes both metrics, at step
    [resume_epoch], on the live networks as [__init__] left them
    ([build_model]'s networks re-initialised by [he_init], [fan] untouched):
    the checkpoint it loads goes into the shadow ensemble [nets_ema], which
    the metrics never see. *)
Theorem evaluate_non_train_live_nets (args : Args) (nets nets_ema : Ens)
    (he : string -> list param -> list param) fs sv' calls :
  mode args <> "train" ->
  evaluate (solver_init args nets nets_ema he) fs = Ok (sv', calls) ->
  calls = [(init_children he nets, resume_epoch args, "latent");
           (init_children he nets, resume_epoch args, "reference")].
Proof.
  intros Hmode H. unfold evaluate, _load_checkpoint, solver_init in H.
  apply String.eqb_neq in Hmode; rewrite Hmode in H.
  cbn [sv_ckptios sv_store sv_args load_all] in H.
  unfold ckptio_load in H; cbn [make_ckptio ck_template ck_modules] in H.
  destruct (fs_get fs _) as [payload|]; cbn in H; [|discriminate].
  match type of H with
  | context [fold_left ?f ?mods (Ok ?s)] =>
      destruct (fold_left f mods (Ok s)) as [s1|] eqn:Hf; cbn in H; [|discriminate]
  end.
  injection H as _ <-.
  apply fold_load_ema in Hf.
  - destruct Hf as [s0 [E [L _]]]. injection E as <-. rewrite L. reflexivity.
  - intros m Hm; apply in_map_iff in Hm.
    destruct Hm as [kv [<- _]]; reflexivity.
Qed.

Lemma evaluate_non_train_live_nets_witness :
  mode Ex.sample_args <> "train" /\
  exists r,
    evaluate (solver_init Ex.sample_args (Ex.ens 1) (Ex.ema_ens 0) Ex.he) Ex.ema_fs
    = Ok r /\
    snd r = [(init_children Ex.he (Ex.ens 1), 0%Z, "latent");
             (init_children Ex.he (Ex.ens 1), 0%Z, "reference")] /\
    ens_get (init_children Ex.he (Ex.ens 1)) "generator" = Some [[f32_of_Z 5]] /\
    ens_get (init_children Ex.he (Ex.ens 1)) "fan" = Some [[f32_of_Z 1]].
Proof.
  assert (Hs : mode Ex.sample_args <> "train") by (vm_compute; discriminate).
  split; [exact Hs|].
  destruct (evaluate (solver_init Ex.sample_args (Ex.ens 1) (Ex.ema_ens 0) Ex.he)
              Ex.ema_fs)
    as [[sv' calls]|err] eqn:H; [| vm_compute in H; discriminate H].
  exists (sv', calls). split; [reflexivity|].
  split; [exact (evaluate_non_train_live_nets _ _ _ _ _ _ _ Hs H)|].
  split; reflexivity.
Defined.
